(** * Bingo Card Generator: a shallow embedding of [streamlit_bingo_app.py]

    The definitions come first and follow the program:
    - [PyStr]: Python [str] values and the string methods the program calls;
    - [pyval], [pyexc], [result]: Python objects, exceptions, and
      computations that may raise;
    - [Json]: [json.loads];
    - [Card]: [generate_bingo_card] with the slot list, [random.shuffle] and
      the grid of squares;
    - [Extractor]: [parse_items_with_llm];
    - [App]: the handler of the Generate button, as the list of events it
      produces.
    The properties follow in the same order, first those of the
    specification, then further properties of the same functions.

    A Python [list] is a [list], a Python [str] the list of its code
    points.  Randomness, the remote service, [textwrap.wrap], the layout
    of matplotlib and the recursion limit of the interpreter are inputs of
    the model. *)

From Stdlib Require Import String Ascii.
From stdpp Require Import base numbers list.

Set Default Proof Using "Type".

(* ===================================================================== *)
(** ** Python strings *)
(* ===================================================================== *)

Module PyStr.
Local Open Scope N_scope.

(** A Python [str] is an immutable sequence of Unicode code points. *)
Abbreviation pychar := N (only parsing).
Abbreviation pystr := (list N) (only parsing).

(** [py "abc"] is the [str] literal written with ASCII characters only. *)
Definition py (s : string) : pystr :=
  map N_of_ascii (list_ascii_of_string s).

(** [chr "a"] is the character written between the quotes; the three
    characters below cannot be written that way. *)
Definition chr (a : ascii) : pychar := N_of_ascii a.
Definition LF : pychar := 10.
Definition QUOTE : pychar := 34.
Definition BACKSLASH : pychar := 92.

Definition pystr_eqb (s t : pystr) : bool := bool_decide (s = t).

(** [str.isspace] for one character, the set used by [str.strip()] when it
    is called without argument. *)
Definition isspace (c : pychar) : bool :=
  ((9 <=? c) && (c <=? 13)) || ((28 <=? c) && (c <=? 32))
  || (c =? 133) || (c =? 160) || (c =? 5760)
  || ((8192 <=? c) && (c <=? 8202))
  || (c =? 8232) || (c =? 8233) || (c =? 8239) || (c =? 8287) || (c =? 12288).

Fixpoint lstrip (s : pystr) : pystr :=
  match s with
  | c :: s' => if isspace c then lstrip s' else s
  | [] => []
  end.

Definition rstrip (s : pystr) : pystr := reverse (lstrip (reverse s)).

(** [s.strip()] *)
Definition strip (s : pystr) : pystr := rstrip (lstrip s).

(** [s.startswith(p)] *)
Fixpoint startswith (s p : pystr) : bool :=
  match p, s with
  | [], _ => true
  | a :: p', b :: s' => (a =? b) && startswith s' p'
  | _ :: _, [] => false
  end.

(** [s.split(sep)] for a non-empty separator: the pieces between the
    non-overlapping occurrences of [sep], found from left to right.
    [skip] counts the characters of an occurrence still to be passed over,
    [cur] is the current piece in reverse. *)
Fixpoint split_go (sep : pystr) (skip : nat) (cur : pystr) (s : pystr)
  : list pystr :=
  match s with
  | [] => [reverse cur]
  | c :: s' =>
      match skip with
      | S k => split_go sep k cur s'
      | O =>
          if startswith s sep
          then reverse cur :: split_go sep (Nat.pred (length sep)) [] s'
          else split_go sep O (c :: cur) s'
      end
  end.

Definition split (s sep : pystr) : list pystr := split_go sep O [] s.

(** ["\n".join(parts)] and friends. *)
Fixpoint join (sep : pystr) (parts : list pystr) : pystr :=
  match parts with
  | [] => []
  | [p] => p
  | p :: ps => p ++ sep ++ join sep ps
  end.

End PyStr.

Export PyStr.

(* ===================================================================== *)
(** ** Python values and exceptions *)
(* ===================================================================== *)

#[local] Set Warnings "-register-all".

(** The objects [json.loads] can return: [None], [bool], [int], [float],
    [str], [list] and [dict].  A [float] is kept as the literal handed to
    [float()], the program never computes with one.  A [dict] is the list
    of its entries in insertion order, with pairwise distinct keys. *)
Inductive pyval :=
| PNone
| PBool (b : bool)
| PInt (z : Z)
| PFloat (lit : pystr)
| PStr (s : pystr)
| PList (l : list pyval)
| PDict (d : list (pystr * pyval)).

(** The exception classes the program can meet.  [RemoteError] stands for
    everything the client library raises; [OutOfFuel] is no Python
    exception (see [Json]). *)
Inductive pyexc :=
| JSONDecodeError
| ValueError
| RecursionError
| TypeError
| AttributeError
| KeyError
| IndexError
| RemoteError (msg : pystr)
| OutOfFuel.

Inductive result (A : Type) :=
| Ok (a : A)
| Raise (e : pyexc).
Arguments Ok {A} a.
Arguments Raise {A} e.

#[global] Instance result_ret : MRet result := fun A a => Ok a.
#[global] Instance result_bind : MBind result := fun A B k m =>
  match m with
  | Ok a => k a
  | Raise e => Raise e
  end.

(** [d[k] = v] *)
Fixpoint dict_set (d : list (pystr * pyval)) (k : pystr) (v : pyval)
  : list (pystr * pyval) :=
  match d with
  | [] => [(k, v)]
  | (k', v') :: d' =>
      if pystr_eqb k' k then (k', v) :: d' else (k', v') :: dict_set d' k v
  end.

(** [len(x)] *)
Definition py_len (x : pyval) : result nat :=
  match x with
  | PStr s => Ok (length s)
  | PList l => Ok (length l)
  | PDict d => Ok (length d)
  | _ => Raise TypeError
  end.

(** [list(x)], the elements a [for] loop over [x] visits. *)
Definition py_iter (x : pyval) : result (list pyval) :=
  match x with
  | PStr s => Ok (map (fun c => PStr [c]) s)
  | PList l => Ok l
  | PDict d => Ok (map (fun kv => PStr kv.1) d)
  | _ => Raise TypeError
  end.

(* ===================================================================== *)
(** ** [json.loads] *)
(* ===================================================================== *)

(** The interpreter's recursion limit as the decoder meets it: when the
    program calls [json.loads], [recursion_margin + 1] arrays and objects
    may be open inside one another; one more raises [RecursionError]. *)
Class Interpreter := recursion_margin : nat.

(** The decoder of Python's standard library with its default settings
    (strict mode, no hooks), written after the scanner CPython runs.  The
    functions work on the text still to be read and return the value with
    the text that follows it.  [depth] is the number of arrays and objects
    that may still be entered.  The mutual recursion between values, arrays
    and objects is bounded by [fuel]; [OutOfFuel] is not a Python exception
    and [json_loads_raises] shows that [json_loads] never meets it. *)
Module Json.
Local Open Scope N_scope.

Definition is_ws (c : pychar) : bool :=
  (c =? 32) || (c =? 9) || (c =? 10) || (c =? 13).

Fixpoint skip_ws (s : pystr) : pystr :=
  match s with
  | c :: s' => if is_ws c then skip_ws s' else s
  | [] => []
  end.

Definition is_digit (c : pychar) : bool := (48 <=? c) && (c <=? 57).

Definition hex_digit (c : pychar) : option N :=
  if (48 <=? c) && (c <=? 57) then Some (c - 48)
  else if (97 <=? c) && (c <=? 102) then Some (c - 87)
  else if (65 <=? c) && (c <=? 70) then Some (c - 55)
  else None.

Definition hex4 (a b c d : pychar) : option N :=
  x1 ← hex_digit a; x2 ← hex_digit b; x3 ← hex_digit c; x4 ← hex_digit d;
  Some (((x1 * 16 + x2) * 16 + x3) * 16 + x4).

Definition is_high_surrogate (u : N) : bool := (55296 <=? u) && (u <=? 56319).
Definition is_low_surrogate (u : N) : bool := (56320 <=? u) && (u <=? 57343).
Definition join_surrogates (u u2 : N) : N :=
  65536 + ((u - 55296) * 1024 + (u2 - 56320)).

(** The character a one-letter escape stands for. *)
Definition escape_char (e : pychar) : option pychar :=
  if (e =? QUOTE) || (e =? BACKSLASH) || (e =? chr "/") then Some e
  else if e =? chr "b" then Some 8
  else if e =? chr "f" then Some 12
  else if e =? chr "n" then Some 10
  else if e =? chr "r" then Some 13
  else if e =? chr "t" then Some 9
  else None.

Definition cons_char (c : pychar) (r : result (pystr * pystr))
  : result (pystr * pystr) :=
  '(str, rest) ← r; Ok (c :: str, rest).

(** The body of a string, read from just after its opening quote. *)
Fixpoint scanstring (s : pystr) : result (pystr * pystr) :=
  match s with
  | [] => Raise JSONDecodeError
  | c :: s1 =>
      if c =? QUOTE then Ok ([], s1)
      else if c =? BACKSLASH then
        match s1 with
        | [] => Raise JSONDecodeError
        | e :: s2 =>
            if e =? chr "u" then
              match s2 with
              | h1 :: h2 :: h3 :: h4 :: s6 =>
                  match hex4 h1 h2 h3 h4 with
                  | None => Raise JSONDecodeError
                  | Some u =>
                      if is_high_surrogate u then
                        match s6 with
                        | b :: e2 :: g1 :: g2 :: g3 :: g4 :: s12 =>
                            if (b =? BACKSLASH) && (e2 =? chr "u") then
                              match hex4 g1 g2 g3 g4 with
                              | None => Raise JSONDecodeError
                              | Some u2 =>
                                  if is_low_surrogate u2
                                  then cons_char (join_surrogates u u2)
                                         (scanstring s12)
                                  else cons_char u (scanstring s6)
                              end
                            else cons_char u (scanstring s6)
                        | _ => cons_char u (scanstring s6)
                        end
                      else cons_char u (scanstring s6)
                  end
              | _ => Raise JSONDecodeError
              end
            else
              match escape_char e with
              | Some c' => cons_char c' (scanstring s2)
              | None => Raise JSONDecodeError
              end
        end
      else if c <=? 31 then Raise JSONDecodeError
      else cons_char c (scanstring s1)
  end.

(** Numbers: an optional minus sign and either a single 0 or a digit 1-9
    followed by digits; then, optionally, a point with at least one digit;
    then, optionally, e or E, an optional sign and at least one digit. *)
Fixpoint span_digits (s : pystr) : pystr * pystr :=
  match s with
  | c :: s' =>
      if is_digit c then let '(ds, rest) := span_digits s' in (c :: ds, rest)
      else ([], s)
  | [] => ([], [])
  end.

Definition match_integer (s : pystr) : option (pystr * pystr) :=
  let '(sign, s1) :=
    match s with
    | c :: s' => if c =? chr "-" then ([c], s') else ([], s)
    | [] => ([], s)
    end in
  match s1 with
  | d :: s2 =>
      if d =? chr "0" then Some (sign ++ [d], s2)
      else if is_digit d
      then let '(ds, s3) := span_digits s2 in Some (sign ++ d :: ds, s3)
      else None
  | [] => None
  end.

Definition match_frac (s : pystr) : pystr * pystr :=
  match s with
  | c :: d :: s2 =>
      if (c =? chr ".") && is_digit d
      then let '(ds, s3) := span_digits s2 in (c :: d :: ds, s3)
      else ([], s)
  | _ => ([], s)
  end.

Definition match_exp (s : pystr) : pystr * pystr :=
  match s with
  | e :: s1 =>
      if (e =? chr "e") || (e =? chr "E") then
        let '(sign, s2) :=
          match s1 with
          | c :: s' =>
              if (c =? chr "+") || (c =? chr "-") then ([c], s') else ([], s1)
          | [] => ([], s1)
          end in
        let '(ds, s3) := span_digits s2 in
        match ds with
        | [] => ([], s)
        | _ :: _ => (e :: sign ++ ds, s3)
        end
      else ([], s)
  | [] => ([], s)
  end.

(** [int(integer)]: the value of the decimal digits, refused beyond the
    interpreter's limit on the length of a decimal integer. *)
Definition int_max_str_digits : nat := 4300.

Definition digits_value (ds : pystr) : Z :=
  foldl (fun acc c => (10 * acc + Z.of_N (c - 48))%Z) 0%Z ds.

Definition parse_int (integer : pystr) : result pyval :=
  let '(neg, ds) :=
    match integer with
    | c :: ds => if c =? chr "-" then (true, ds) else (false, integer)
    | [] => (false, integer)
    end in
  if (int_max_str_digits <? length ds)%nat then Raise ValueError
  else Ok (PInt (if neg then - digits_value ds else digits_value ds)%Z).

Definition match_number (s : pystr) : option (result pyval * pystr) :=
  '(integer, s1) ← match_integer s;
  let '(frac, s2) := match_frac s1 in
  let '(exp, s3) := match_exp s2 in
  match frac ++ exp with
  | [] => Some (parse_int integer, s3)
  | _ :: _ => Some (Ok (PFloat (integer ++ frac ++ exp)), s3)
  end.

(** A constant spelled [word] at the head of [s]. *)
Definition keyword (word : string) (v : pyval) (s : pystr)
  : option (pyval * pystr) :=
  if startswith s (py word) then Some (v, drop (length (py word)) s)
  else None.

Definition scan_constant (s : pystr) : option (pyval * pystr) :=
  match keyword "null" PNone s with
  | Some r => Some r
  | None =>
  match keyword "true" (PBool true) s with
  | Some r => Some r
  | None =>
  match keyword "false" (PBool false) s with
  | Some r => Some r
  | None =>
  match keyword "NaN" (PFloat (py "NaN")) s with
  | Some r => Some r
  | None =>
  match keyword "Infinity" (PFloat (py "Infinity")) s with
  | Some r => Some r
  | None => keyword "-Infinity" (PFloat (py "-Infinity")) s
  end end end end end.

Definition make_dict (pairs : list (pystr * pyval)) : pyval :=
  PDict (foldl (fun d kv => dict_set d kv.1 kv.2) [] pairs).

Fixpoint scan_once (fuel depth : nat) (s : pystr)
  : result (pyval * pystr) :=
  match fuel with
  | O => Raise OutOfFuel
  | S fuel =>
      match s with
      | [] => Raise JSONDecodeError
      | c :: s1 =>
          if c =? QUOTE then
            '(str, rest) ← scanstring s1; Ok (PStr str, rest)
          else if c =? chr "{" then
            match depth with
            | O => Raise RecursionError
            | S depth =>
                match skip_ws s1 with
                | [] => Raise JSONDecodeError
                | c2 :: s2 =>
                    if c2 =? chr "}" then Ok (PDict [], s2)
                    else '(pairs, rest) ← parse_object fuel depth (c2 :: s2);
                         Ok (make_dict pairs, rest)
                end
            end
          else if c =? chr "[" then
            match depth with
            | O => Raise RecursionError
            | S depth =>
                match skip_ws s1 with
                | [] => Raise JSONDecodeError
                | c2 :: s2 =>
                    if c2 =? chr "]" then Ok (PList [], s2)
                    else '(values, rest) ← parse_array fuel depth (c2 :: s2);
                         Ok (PList values, rest)
                end
            end
          else
            match scan_constant s with
            | Some r => Ok r
            | None =>
                match match_number s with
                | Some (r, rest) => v ← r; Ok (v, rest)
                | None => Raise JSONDecodeError
                end
            end
      end
  end
with parse_array (fuel depth : nat) (s : pystr)
  : result (list pyval * pystr) :=
  match fuel with
  | O => Raise OutOfFuel
  | S fuel =>
      '(v, s1) ← scan_once fuel depth s;
      match skip_ws s1 with
      | [] => Raise JSONDecodeError
      | c :: s2 =>
          if c =? chr "]" then Ok ([v], s2)
          else if c =? chr "," then
            '(values, rest) ← parse_array fuel depth (skip_ws s2);
            Ok (v :: values, rest)
          else Raise JSONDecodeError
      end
  end
with parse_object (fuel depth : nat) (s : pystr)
  : result (list (pystr * pyval) * pystr) :=
  match fuel with
  | O => Raise OutOfFuel
  | S fuel =>
      match s with
      | [] => Raise JSONDecodeError
      | c :: s1 =>
          if c =? QUOTE then
            '(key, s2) ← scanstring s1;
            match skip_ws s2 with
            | [] => Raise JSONDecodeError
            | c2 :: s3 =>
                if c2 =? chr ":" then
                  '(v, s4) ← scan_once fuel depth (skip_ws s3);
                  match skip_ws s4 with
                  | [] => Raise JSONDecodeError
                  | c3 :: s5 =>
                      if c3 =? chr "}" then Ok ([(key, v)], s5)
                      else if c3 =? chr "," then
                        '(pairs, rest) ←
                          parse_object fuel depth (skip_ws s5);
                        Ok ((key, v) :: pairs, rest)
                      else Raise JSONDecodeError
                  end
                else Raise JSONDecodeError
            end
          else Raise JSONDecodeError
      end
  end.

(** [json.loads(s)]: one value, surrounded by optional whitespace. *)
Definition json_loads `{Interpreter} (s : pystr) : result pyval :=
  if startswith s [65279] then Raise JSONDecodeError
  else
    '(v, rest) ←
      scan_once (2 * length s + 1) (S recursion_margin) (skip_ws s);
    match skip_ws rest with
    | [] => Ok v
    | _ :: _ => Raise JSONDecodeError
    end.

End Json.

Export Json.

(* ===================================================================== *)
(** ** Truth values *)
(* ===================================================================== *)

(** [float(lit) != 0.0].  The conversion rounds to the nearest double, ties
    to even, so the result is zero exactly when the decimal value is at
    most [2^-1075], half of the smallest positive double. *)
Definition float_nonzero (lit : pystr) : bool :=
  match match_integer lit with
  | None => true
  | Some (integer, s1) =>
      let '(frac, s2) := match_frac s1 in
      let '(exp, _) := match_exp s2 in
      let unsigned (ds : pystr) :=
        match ds with
        | c :: ds' => if (c =? chr "-")%N || (c =? chr "+")%N then ds' else ds
        | [] => []
        end in
      let negative (ds : pystr) :=
        match ds with
        | c :: _ => (c =? chr "-")%N
        | [] => false
        end in
      let m := digits_value (unsigned integer ++ drop 1 frac) in
      let e := digits_value (unsigned (drop 1 exp)) in
      let k := ((if negative (drop 1 exp) then - e else e)
                - Z.of_nat (length (drop 1 frac)))%Z in
      negb ((m =? 0)%Z || ((k <? 0)%Z && (m * 2 ^ 1075 <=? 10 ^ (- k))%Z))
  end.

(** [bool(x)], the test of [if x:]. *)
Definition py_bool (x : pyval) : bool :=
  match x with
  | PNone => false
  | PBool b => b
  | PInt z => negb (z =? 0)%Z
  | PFloat lit => float_nonzero lit
  | PStr s => negb (length s =? 0)
  | PList l => negb (length l =? 0)
  | PDict d => negb (length d =? 0)
  end.

(* ===================================================================== *)
(** ** The card renderer: [generate_bingo_card] *)
(* ===================================================================== *)

(** [textwrap.wrap(text, width)] of the standard library: the lines of the
    wrapped paragraph.  The program only joins them again, so the function
    is left abstract. *)
Class Textwrap := textwrap_wrap : pystr -> nat -> list pystr.

Module Card.

(** The source of randomness: the raw draws still to come.  [randbelow n]
    takes the next one and reduces it to the range [0, n). *)
Definition rng := list nat.

Definition randbelow (n : nat) (g : rng) : nat * rng :=
  match g with
  | r :: g' => (r mod n, g')
  | [] => (0, [])
  end.

(** [x[i], x[j] = x[j], x[i]].  Both indices are within the list wherever
    the shuffle uses it ([swap_in_range]). *)
Definition swap {A} (x : list A) (i j : nat) : list A :=
  match x !! i, x !! j with
  | Some xi, Some xj => <[j := xi]> (<[i := xj]> x)
  | _, _ => x
  end.

(** [random.shuffle(x)]:
    [for i in reversed(range(1, len(x))): j = randbelow(i + 1); swap]. *)
Fixpoint shuffle_from {A} (i : nat) (x : list A) (g : rng) : list A * rng :=
  match i with
  | O => (x, g)
  | S i' =>
      let '(j, g') := randbelow (S i) g in
      shuffle_from i' (swap x i j) g'
  end.

Definition shuffle {A} (x : list A) (g : rng) : list A * rng :=
  shuffle_from (length x - 1) x g.

(** [x.insert(i, v)] for [i >= 0]: beyond the end it appends. *)
Definition list_insert {A} (i : nat) (v : A) (x : list A) : list A :=
  take i x ++ v :: drop i x.

Definition FREE_LABEL : pystr := py "FREE:" ++ [LF] ++ py "Appreciate Life".

(** Lines 45-48: pad or trim to 24 items. *)
Definition all_slots (items : list pyval) : list pyval :=
  if length items <? 24
  then items ++ replicate (24 - length items) (PStr [])
  else take 24 items.

(** Line 50. *)
Definition all_slots_shuffled (items : list pyval) (g : rng) : list pyval :=
  (shuffle (all_slots items) g).1.

(** Line 53: the free square goes to the centre. *)
Definition all_slots_with_free (items : list pyval) (g : rng) : list pyval :=
  list_insert 12 (PStr FREE_LABEL) (all_slots_shuffled items g).

(** Line 63: the slot drawn in column [i], row [j] (rows count upwards). *)
Definition idx (i j : nat) : nat := (4 - j) * 5 + i.

(** The coordinates in the order the two loops of lines 60-61 visit them. *)
Definition grid : list (nat * nat) :=
  i ← seq 0 5; j ← seq 0 5; [(i, j)].

(** Line 70. *)
Definition face_color (idx : nat) : pystr :=
  if idx =? 12 then py "#fff0f3" else py "white".

(** One square: the rectangle with corner [(i, j)] and side 1, and the
    text centred in it. *)
Record cell := {
  cell_i : nat;
  cell_j : nat;
  cell_facecolor : pystr;
  cell_text : pystr
}.

Record Figure := {
  fig_cells : list cell;
  fig_headers : list (nat * pystr);
  fig_title : pystr
}.

(** [plt.tight_layout()] (line 114) measures every text of the figure, and
    raises when matplotlib cannot lay one of them out: [ValueError] for a
    text with two dollar signs and no formula between them, [TypeError]
    for a lone surrogate.  Which texts it accepts is left abstract. *)
Class Matplotlib := tight_layout : Figure -> result unit.

Fixpoint for_each {A B} (f : A -> result B) (l : list A) : result (list B) :=
  match l with
  | [] => Ok []
  | a :: l' => b ← f a; bs ← for_each f l'; Ok (b :: bs)
  end.

(** [x[i]] for [i >= 0]. *)
Definition getitem {A} (x : list A) (i : nat) : result A :=
  match x !! i with
  | Some v => Ok v
  | None => Raise IndexError
  end.

(** Lines 63-86, the body of the two loops.  [textwrap.wrap] calls
    [expandtabs] on its argument, which only a [str] has. *)
Definition draw_cell `{Textwrap} (all_slots : list pyval) (i j : nat)
  : result cell :=
  let idx := idx i j in
  label ← getitem all_slots idx;
  match label with
  | PStr label =>
      let wrapped_label := join [LF] (textwrap_wrap label 15) in
      Ok {| cell_i := i; cell_j := j;
            cell_facecolor := face_color idx;
            cell_text := wrapped_label |}
  | _ => Raise AttributeError
  end.

(** Lines 60-116: the squares, the headers, the title, and the layout. *)
Definition render `{Textwrap, Matplotlib}
    (all_slots : list pyval) (title : pystr) : result Figure :=
  columns ← for_each (fun i =>
               for_each (fun j => draw_cell all_slots i j) (seq 0 5))
             (seq 0 5);
  let headers := [py "B"; py "I"; py "N"; py "G"; py "O"] in
  let fig := {| fig_cells := concat columns;
                fig_headers := imap (fun i h => (i, h)) headers;
                fig_title := title |} in
  _ ← tight_layout fig;
  Ok fig.

(** The text of a slot that holds a [str]. *)
Definition str_of (v : pyval) : pystr :=
  match v with
  | PStr s => s
  | _ => []
  end.

(** The square the loops draw at [(i, j)] when the slot holds a [str]. *)
Definition cell_of `{Textwrap} (all_slots : list pyval) (p : nat * nat)
  : cell :=
  {| cell_i := p.1; cell_j := p.2;
     cell_facecolor := face_color (idx p.1 p.2);
     cell_text :=
       join [LF]
         (textwrap_wrap (str_of (default PNone (all_slots !! idx p.1 p.2)))
            15) |}.

(** [generate_bingo_card(items, title)].  [items] is whatever the caller
    passes: concatenation with a list, or slicing followed by an in-place
    shuffle, needs a [list].  A [dict] of 24 entries or more fails in the
    slice, which looks the slice up as a key (since Python 3.12, where a
    slice can be hashed; a [TypeError] before). *)
Definition generate_bingo_card `{Textwrap, Matplotlib}
    (items : pyval) (title : pystr) (g : rng) : result Figure :=
  match items with
  | PList items => render (all_slots_with_free items g) title
  | PDict d => if length d <? 24 then Raise TypeError else Raise KeyError
  | _ => Raise TypeError
  end.

End Card.

Export Card.

(* ===================================================================== *)
(** ** The item extractor: [parse_items_with_llm] *)
(* ===================================================================== *)

(** The remote completion service as the program sees it: building the
    client from the credential, and the request, which yields
    [response.choices[0].message.content] or the exception raised on the
    way. *)
Class OpenRouter := {
  OpenAI : option pystr -> result unit;
  chat_completions_create : pystr -> result pystr
}.

(** What the user and the outside world can observe of one run. *)
Inductive event :=
| StError (msg : pystr)
| StErrorParsing (e : pyexc)
| StSpinner (msg : pystr)
| StSuccessFound (n : nat)
| StExpander (label : pystr)
| StWrite (i : nat) (item : pyval)
| ChatRequest (text : pystr)
| StPyplot (fig : Figure)
| PltClose
| Uncaught (e : pyexc).

Module Extractor.

Definition FENCE : pystr := py "```".

(** Lines 31-37: the text handed to [json.loads]. *)
Definition strip_code_block (content : pystr) : result pystr :=
  let result := strip content in
  if startswith result FENCE then
    result ← getitem (split result FENCE) 1;
    let result :=
      if startswith result (py "json") then drop 4 result else result in
    Ok (strip result)
  else Ok result.

(** Lines 31-39. *)
Definition parse_response `{Interpreter} (content : pystr) : result pyval :=
  result ← strip_code_block content;
  json_loads result.

(** [parse_items_with_llm(text)], with the value of the environment
    variable read on line 14. *)
Definition parse_items_with_llm `{Interpreter, OpenRouter}
    (api_key : option pystr) (text : pystr) : list event * result pyval :=
  match OpenAI api_key with
  | Raise e => ([], Raise e)
  | Ok _ =>
      ([ChatRequest text],
       content ← chat_completions_create text; parse_response content)
  end.

End Extractor.

Export Extractor.

(* ===================================================================== *)
(** ** The driver: the handler of the Generate button *)
(* ===================================================================== *)

Module App.

(** Lines 140-150: the [try] statement; the second component is the value
    of [items] after it. *)
Definition try_parse `{Interpreter, OpenRouter} (api_key : option pystr)
    (user_input : pystr) : list event * pyval :=
  let '(ev, r) := parse_items_with_llm api_key user_input in
  match r with
  | Raise e => (ev ++ [StErrorParsing e], PNone)
  | Ok items =>
      match py_len items with
      | Raise e => (ev ++ [StErrorParsing e], PNone)
      | Ok n =>
          let ev :=
            ev ++ [StSuccessFound n; StExpander (py "View parsed items")] in
          match py_iter items with
          | Raise e => (ev ++ [StErrorParsing e], PNone)
          | Ok elems =>
              (ev ++ imap (fun i item => StWrite (S i) item) elems, items)
          end
      end
  end.

(** Lines 152-156. *)
Definition show_card `{Textwrap, Matplotlib}
    (items : pyval) (title : pystr) (g : rng) : list event :=
  if py_bool items then
    StSpinner (py "Generating bingo card...") ::
    match generate_bingo_card items title g with
    | Ok fig => [StPyplot fig; PltClose]
    | Raise e => [Uncaught e]
    end
  else [].

(** Lines 134-156, run when the button is pressed.  [environ_key] is
    [os.environ.get("OPENROUTER_API_KEY")]. *)
Definition on_generate `{Textwrap, Matplotlib, Interpreter, OpenRouter}
    (environ_key : option pystr) (user_input title : pystr) (g : rng)
  : list event :=
  if negb (py_bool (PStr (strip user_input))) then
    [StError (py "Please enter some items first!")]
  else if negb (py_bool (from_option PStr PNone environ_key)) then
    [StError (py "Please set OPENROUTER_API_KEY environment variable")]
  else
    let '(ev, items) := try_parse environ_key user_input in
    StSpinner (py "Parsing your items...") :: ev ++ show_card items title g.

End App.

Export App.

(* ===================================================================== *)
(** ** Reference texts and sample inputs *)
(* ===================================================================== *)

(** The properties below are stated against these definitions, which are
    not part of the program: the JSON text of a list of strings as a
    serializer writes it, the same text inside a code fence, and a few
    concrete inputs. *)
Module Reference.

Definition hex_char (d : N) : pychar := (if d <? 10 then 48 + d else 87 + d)%N.

(** The characters of a JSON string that must be escaped: the quote, the
    backslash and the control characters. *)
Definition json_escape (c : pychar) : pystr :=
  if (c =? QUOTE)%N then [BACKSLASH; QUOTE]
  else if (c =? BACKSLASH)%N then [BACKSLASH; BACKSLASH]
  else if (c <=? 31)%N then
    [BACKSLASH; chr "u"; chr "0"; chr "0";
     hex_char (c / 16); hex_char (c mod 16)]
  else [c].

Definition json_string (s : pystr) : pystr :=
  QUOTE :: (s ≫= json_escape) ++ [QUOTE].

(** The elements of the array, separated by a comma and a space. *)
Definition elements (ss : list pystr) : pystr :=
  join (py ", ") (json_string <$> ss).

Definition json_array (ss : list pystr) : pystr :=
  py "[" ++ elements ss ++ py "]".

Definition fenced (text : pystr) : pystr :=
  py "```json" ++ [LF] ++ text ++ [LF] ++ py "```".

(** The text of a JSON string: the characters between quotes. *)
Definition quoted (s : string) : pystr := [QUOTE] ++ py s ++ [QUOTE].

(** The exceptions of the decoder. *)
Definition decoder_exc (e : pyexc) : Prop :=
  e = JSONDecodeError \/ e = ValueError \/ e = RecursionError
  \/ e = OutOfFuel.

(** The text between the quotes of a JSON string and the string it
    denotes.  A character is written as itself (unless it is a quote, a
    backslash or a control character), as a one-letter escape, as a
    [\u] escape with four hexadecimal digits, or, beyond U+FFFF, as a
    surrogate pair of two of those. *)
Inductive string_body : pystr -> pystr -> Prop :=
| body_end : string_body [] []
| body_raw (c : pychar) (text s : pystr) :
    c <> QUOTE -> c <> BACKSLASH -> (31 < c)%N ->
    string_body text s -> string_body (c :: text) (c :: s)
| body_escape (e c : pychar) (text s : pystr) :
    escape_char e = Some c ->
    string_body text s -> string_body (BACKSLASH :: e :: text) (c :: s)
| body_hex (h1 h2 h3 h4 : pychar) (u : N) (text s : pystr) :
    hex4 h1 h2 h3 h4 = Some u -> is_high_surrogate u = false ->
    string_body text s ->
    string_body (BACKSLASH :: chr "u" :: h1 :: h2 :: h3 :: h4 :: text)
      (u :: s)
| body_pair (h1 h2 h3 h4 g1 g2 g3 g4 : pychar) (u u2 : N) (text s : pystr) :
    hex4 h1 h2 h3 h4 = Some u -> is_high_surrogate u = true ->
    hex4 g1 g2 g3 g4 = Some u2 -> is_low_surrogate u2 = true ->
    string_body text s ->
    string_body
      (BACKSLASH :: chr "u" :: h1 :: h2 :: h3 :: h4
       :: BACKSLASH :: chr "u" :: g1 :: g2 :: g3 :: g4 :: text)
      (join_surrogates u u2 :: s).

(** JSON whitespace: spaces, tabs, line feeds and carriage returns. *)
Definition whitespace (w : pystr) : Prop :=
  Forall (fun c => is_ws c = true) w.

(** The elements of a non-empty JSON array of strings up to the closing
    bracket, with any whitespace around the commas and before the
    bracket. *)
Inductive array_elements : pystr -> list pystr -> Prop :=
| elements_last (body s w : pystr) :
    string_body body s -> whitespace w ->
    array_elements (QUOTE :: body ++ QUOTE :: w ++ [chr "]"]) [s]
| elements_more (body s w1 w2 text : pystr) (ss : list pystr) :
    string_body body s -> whitespace w1 -> whitespace w2 ->
    array_elements text ss ->
    array_elements (QUOTE :: body ++ QUOTE :: w1 ++ chr "," :: w2 ++ text)
      (s :: ss).

(** [array_text text ss]: [text] is a JSON text of the array of the
    strings [ss]. *)
Inductive array_text : pystr -> list pystr -> Prop :=
| array_empty (w : pystr) :
    whitespace w -> array_text (chr "[" :: w ++ [chr "]"]) []
| array_nonempty (w text : pystr) (ss : list pystr) :
    whitespace w -> array_elements text ss ->
    array_text (chr "[" :: w ++ text) ss.

(** Thirty distinct one-letter items. *)
Definition thirty : list pystr := (fun n => [N.of_nat n + 65]%N) <$> seq 0 30.

(** A wrapper that keeps the text on one line, and a service that answers
    every request with the empty array. *)
Definition sample_wrap : Textwrap := fun text _ => [text].
Definition sample_remote : OpenRouter :=
  {| OpenAI key := if key is Some _ then Ok () else Raise (RemoteError []);
     chat_completions_create _ := Ok (py "[]") |}.

End Reference.

Export Reference.

(* ===================================================================== *)
(** ** Observations on values, cards and runs *)
(* ===================================================================== *)

(** Predicates and inputs used to state the further properties at the end
    of the file. *)
Module Observe.

(** The value is a [str]; the value is the empty [str]. *)
Definition is_str (v : pyval) : bool :=
  match v with
  | PStr _ => true
  | _ => false
  end.

Definition is_empty_str (v : pyval) : bool :=
  match v with
  | PStr [] => true
  | _ => false
  end.

(** The text drawn for a slot: its wrapped lines joined by line feeds. *)
Definition shown `{Textwrap} (v : pyval) : pystr :=
  join [LF] (textwrap_wrap (str_of v) 15).

(** The figure the loops of lines 60-112 build from 25 slots that all
    hold a [str], before it is laid out. *)
Definition figure_of `{Textwrap} (all_slots : list pyval) (title : pystr)
  : Figure :=
  {| fig_cells := cell_of all_slots <$> grid;
     fig_headers :=
       [(0, py "B"); (1, py "I"); (2, py "N"); (3, py "G"); (4, py "O")];
     fig_title := title |}.

(** The grid positions as a reader meets them: row by row from the top,
    each row from left to right. *)
Definition reading_order : list (nat * nat) :=
  j ← [4; 3; 2; 1; 0]; i ← seq 0 5; [(i, j)].

(** The event is the request to the remote service. *)
Definition is_request (ev : event) : bool :=
  match ev with
  | ChatRequest _ => true
  | _ => false
  end.

(** A service that answers every request with [content], and one whose
    request raises [e]. *)
Definition remote_replying (content : pystr) : OpenRouter :=
  {| OpenAI key := if key is Some _ then Ok () else Raise (RemoteError []);
     chat_completions_create _ := Ok content |}.

Definition remote_failing (e : pyexc) : OpenRouter :=
  {| OpenAI key := if key is Some _ then Ok () else Raise (RemoteError []);
     chat_completions_create _ := Raise e |}.

(** A layout that accepts every figure, one that refuses every figure,
    and an interpreter that allows 1000 open arrays and objects. *)
Definition layout_accepting : Matplotlib := fun _ => Ok ().
Definition layout_refusing (e : pyexc) : Matplotlib := fun _ => Raise e.
Definition interpreter_1000 : Interpreter := 999.

(** The card of two items under these, as a sample figure. *)
Definition sample_figure : Figure :=
  @figure_of sample_wrap
    (all_slots_with_free [PStr (py "Ski"); PStr (py "Read")] [3; 1; 4])
    (py "2025 GOALS").

End Observe.

Export Observe.

(* ===================================================================== *)
(** * Properties *)
(* ===================================================================== *)

(** ** Shuffling and inserting *)

Example shuffle_example :
  (shuffle [0; 1; 2; 3; 4] [7; 2; 5; 0]).1 = [1; 0; 3; 4; 2].
Proof. reflexivity. Qed.

Section CardFacts.
Context {A : Type}.
Implicit Types (x : list A) (g : rng).

Lemma randbelow_lt n g : 0 < n -> (randbelow n g).1 < n.
Proof.
  intros Hn. destruct g as [|r g]; simpl; [done|].
  apply Nat.mod_upper_bound. lia.
Qed.

Lemma swap_in_range x i j :
  j <= i -> i < length x -> exists xi xj, x !! i = Some xi /\ x !! j = Some xj.
Proof.
  intros Hj Hi.
  destruct (lookup_lt_is_Some_2 x i Hi) as [xi Hxi].
  destruct (lookup_lt_is_Some_2 x j ltac:(lia)) as [xj Hxj].
  eauto.
Qed.

Lemma length_swap x i j : length (swap x i j) = length x.
Proof.
  unfold swap. destruct (x !! i), (x !! j); try done.
  by rewrite !length_insert.
Qed.

Lemma insert_Permutation_cons x j a b :
  x !! j = Some b -> b :: <[j := a]> x ≡ₚ a :: x.
Proof.
  revert j. induction x as [|c x IH]; intros [|j] Hj; simplify_eq/=.
  - apply perm_swap.
  - rewrite (perm_swap c b). rewrite (IH _ Hj). apply perm_swap.
Qed.

Lemma swap_Permutation x i j : swap x i j ≡ₚ x.
Proof.
  unfold swap.
  destruct (x !! i) as [xi|] eqn:Hi; [|done].
  destruct (x !! j) as [xj|] eqn:Hj; [|done].
  revert i j Hi Hj. induction x as [|c x IH]; intros [|i] [|j] Hi Hj;
    simplify_eq/=; try done.
  - by apply insert_Permutation_cons.
  - by apply insert_Permutation_cons.
  - by rewrite IH.
Qed.

Lemma shuffle_from_Permutation i x g : (shuffle_from i x g).1 ≡ₚ x.
Proof.
  revert x g. induction i as [|i IH]; intros x g; simpl; [done|].
  destruct (randbelow (S (S i)) g) as [j g'].
  rewrite IH. apply swap_Permutation.
Qed.

Lemma shuffle_Permutation x g : (shuffle x g).1 ≡ₚ x.
Proof. apply shuffle_from_Permutation. Qed.

Lemma length_shuffle x g : length (shuffle x g).1 = length x.
Proof. by rewrite shuffle_Permutation. Qed.

Lemma length_list_insert i (v : A) x :
  length (list_insert i v x) = S (length x).
Proof.
  unfold list_insert. rewrite length_app. simpl.
  rewrite length_take, length_drop. lia.
Qed.

Lemma list_insert_lookup i (v : A) x :
  i <= length x -> list_insert i v x !! i = Some v.
Proof.
  intros Hi. unfold list_insert.
  rewrite lookup_app_r; rewrite length_take; [|lia].
  by replace (i - i `min` length x) with 0 by lia.
Qed.

Lemma list_insert_Permutation i (v : A) x : list_insert i v x ≡ₚ v :: x.
Proof.
  unfold list_insert. rewrite <- Permutation_middle.
  by rewrite take_drop.
Qed.

End CardFacts.

(** ** The slot list *)

Lemma length_all_slots (items : list pyval) : length (all_slots items) = 24.
Proof.
  unfold all_slots. destruct (Nat.ltb_spec (length items) 24).
  - rewrite length_app, length_replicate. lia.
  - rewrite length_take. lia.
Qed.

Lemma length_all_slots_shuffled items g :
  length (all_slots_shuffled items g) = 24.
Proof.
  unfold all_slots_shuffled. by rewrite length_shuffle, length_all_slots.
Qed.

Lemma all_slots_shuffled_Permutation items g :
  all_slots_shuffled items g ≡ₚ all_slots items.
Proof. apply shuffle_Permutation. Qed.

Lemma length_all_slots_with_free items g :
  length (all_slots_with_free items g) = 25.
Proof.
  unfold all_slots_with_free.
  by rewrite length_list_insert, length_all_slots_shuffled.
Qed.

Lemma all_slots_with_free_12 items g :
  all_slots_with_free items g !! 12 = Some (PStr FREE_LABEL).
Proof.
  apply list_insert_lookup. rewrite length_all_slots_shuffled. lia.
Qed.

Lemma delete_list_insert {A} i (v : A) (x : list A) :
  i <= length x -> delete i (list_insert i v x) = x.
Proof.
  intros Hi. unfold list_insert.
  rewrite <- (take_drop i x) at 3.
  rewrite <- (delete_middle (take i x) (drop i x) v).
  f_equal. rewrite length_take. lia.
Qed.

(** C1. The slot list built before shuffling always has 24 entries; for
    fewer than 24 items it is the items followed by [24 - L] empty strings,
    for 24 items or more it is the first 24 items in their order. *)
Theorem all_slots_pad_or_trim (items : list pyval) :
  length (all_slots items) = 24
  /\ (length items < 24 ->
      all_slots items = items ++ replicate (24 - length items) (PStr [])
      /\ forall k, length items <= k < 24 ->
           all_slots items !! k = Some (PStr []))
  /\ (24 <= length items ->
      all_slots items = take 24 items
      /\ forall k, k < 24 -> all_slots items !! k = items !! k).
Proof.
  split; [apply length_all_slots|].
  unfold all_slots. split; intros HL.
  - destruct (Nat.ltb_spec (length items) 24); [|lia].
    split; [done|]. intros k Hk.
    rewrite lookup_app_r by lia.
    apply lookup_replicate_2. lia.
  - destruct (Nat.ltb_spec (length items) 24); [lia|].
    split; [done|]. intros k Hk. by apply lookup_take_lt.
Qed.

(** C2. Whatever the items and whatever the shuffle draws, the final
    sequence has 25 elements and the free-space label is at index 12; the
    24 other elements are the slot list in some order. *)
Theorem free_label_at_index_12 (items : list pyval) (g : rng) :
  length (all_slots_with_free items g) = 25
  /\ all_slots_with_free items g !! 12 = Some (PStr FREE_LABEL)
  /\ delete 12 (all_slots_with_free items g) ≡ₚ all_slots items.
Proof.
  split; [apply length_all_slots_with_free|].
  split; [apply all_slots_with_free_12|].
  unfold all_slots_with_free. rewrite delete_list_insert.
  - apply all_slots_shuffled_Permutation.
  - rewrite length_all_slots_shuffled. lia.
Qed.

(** ** The grid *)

(** C5. The renderer's map from grid coordinates to logical indices is a
    bijection between [0,4] x [0,4] and [0,24], and the two loops visit
    every logical index exactly once. *)
Theorem idx_bijection :
  (forall i j, i < 5 -> j < 5 -> idx i j < 25)
  /\ (forall i j i' j', i < 5 -> j < 5 -> i' < 5 -> j' < 5 ->
        idx i j = idx i' j' -> i = i' /\ j = j')
  /\ (forall k, k < 25 ->
        exists i j, i < 5 /\ j < 5 /\ idx i j = k
          /\ forall i' j', i' < 5 -> j' < 5 -> idx i' j' = k ->
               i' = i /\ j' = j)
  /\ (fun p => idx p.1 p.2) <$> grid ≡ₚ seq 0 25.
Proof.
  unfold idx. repeat split; try lia.
  - intros k Hk. exists (k mod 5), (4 - k / 5).
    pose proof (Nat.mod_upper_bound k 5 ltac:(lia)).
    pose proof (Nat.div_mod_eq k 5).
    assert (k / 5 < 5) by (apply Nat.Div0.div_lt_upper_bound; lia).
    repeat split; lia.
  - apply (bool_decide_unpack _). by vm_compute.
Qed.

(** ** Thirty distinct items *)

#[global] Instance PStr_inj : Inj (=) (=) PStr.
Proof. intros s t Hst. by injection Hst. Qed.

(** C8. With 30 pairwise distinct strings the card has 25 cells: the free
    space at index 12 and, in the 24 others, the first 24 strings of the
    input, each in exactly one cell. *)
Theorem thirty_distinct_items (ss : list pystr) (g : rng) :
  length ss = 30 -> NoDup ss ->
  length (all_slots_with_free (PStr <$> ss) g) = 25
  /\ all_slots_with_free (PStr <$> ss) g !! 12 = Some (PStr FREE_LABEL)
  /\ delete 12 (all_slots_with_free (PStr <$> ss) g) ≡ₚ PStr <$> take 24 ss
  /\ NoDup (delete 12 (all_slots_with_free (PStr <$> ss) g))
  /\ (forall s, s ∈ ss ->
        (exists k, k <> 12
           /\ all_slots_with_free (PStr <$> ss) g !! k = Some (PStr s))
        <-> s ∈ take 24 ss).
Proof.
  intros Hlen Hnd.
  assert (Hdel : delete 12 (all_slots_with_free (PStr <$> ss) g)
                 = all_slots_shuffled (PStr <$> ss) g).
  { apply delete_list_insert. rewrite length_all_slots_shuffled. lia. }
  assert (Hperm : all_slots_shuffled (PStr <$> ss) g ≡ₚ PStr <$> take 24 ss).
  { rewrite all_slots_shuffled_Permutation. unfold all_slots.
    rewrite length_fmap, Hlen. simpl. by rewrite fmap_take. }
  split; [apply length_all_slots_with_free|].
  split; [apply all_slots_with_free_12|].
  rewrite Hdel. split; [done|]. split.
  - rewrite Hperm. apply (NoDup_fmap_2 _).
    eapply sublist_NoDup; [done | apply sublist_take].
  - intros s _. rewrite <- (list_elem_of_fmap_inj PStr), <- Hperm, <- Hdel.
    rewrite list_elem_of_lookup. split.
    + intros (k & Hk & Hs).
      destruct (decide (k < 12)).
      * exists k. by rewrite list_lookup_delete_lt.
      * exists (k - 1). rewrite list_lookup_delete_ge by lia.
        by replace (S (k - 1)) with k by lia.
    + intros (k & Hs).
      destruct (decide (k < 12)).
      * exists k. rewrite list_lookup_delete_lt in Hs by done. split; [lia|done].
      * exists (S k). rewrite list_lookup_delete_ge in Hs by lia. split; [lia|done].
Qed.


Lemma thirty_distinct_items_witness :
  length (all_slots_with_free (PStr <$> thirty) [3; 1; 4; 1; 5; 9; 2; 6]) = 25
  /\ all_slots_with_free (PStr <$> thirty) [3; 1; 4; 1; 5; 9; 2; 6] !! 12
     = Some (PStr FREE_LABEL)
  /\ delete 12 (all_slots_with_free (PStr <$> thirty) [3; 1; 4; 1; 5; 9; 2; 6])
     ≡ₚ PStr <$> take 24 thirty
  /\ NoDup (delete 12
              (all_slots_with_free (PStr <$> thirty) [3; 1; 4; 1; 5; 9; 2; 6]))
  /\ (forall s, s ∈ thirty ->
        (exists k, k <> 12
           /\ all_slots_with_free (PStr <$> thirty) [3; 1; 4; 1; 5; 9; 2; 6] !! k
              = Some (PStr s))
        <-> s ∈ take 24 thirty).
Proof.
  apply (thirty_distinct_items thirty [3; 1; 4; 1; 5; 9; 2; 6]).
  - reflexivity.
  - apply (bool_decide_unpack _). vm_compute. exact I.
Defined.

(** ** Rendering *)

Lemma is_str_spec (v : pyval) : is_str v = true <-> exists s, v = PStr s.
Proof.
  destruct v; simpl; split; try done; try (by intros [? ?]). by eexists.
Qed.

Lemma for_each_Ok {A B} (f : A -> result B) (h : A -> B) (l : list A) :
  Forall (fun a => f a = Ok (h a)) l -> for_each f l = Ok (h <$> l).
Proof.
  induction 1 as [|a l Ha _ IH]; simpl; [done|].
  by rewrite Ha, IH.
Qed.

Lemma for_each_Raise_inv {A B} (f : A -> result B) (l : list A) (e : pyexc) :
  for_each f l = Raise e -> exists a, a ∈ l /\ f a = Raise e.
Proof.
  induction l as [|a l IH]; simpl; [done|].
  destruct (f a) as [b|e'] eqn:Ha; simpl.
  - destruct (for_each f l) as [bs|e'']; simpl; [done|].
    intros [= ->]. destruct IH as (a' & Hin & Ha'); [done|].
    exists a'. split; [by right|done].
  - intros [= ->]. exists a. split; [by left|done].
Qed.

Lemma for_each_Raise {A B} (f : A -> result B) (l : list A) (e : pyexc) a :
  a ∈ l -> f a = Raise e ->
  (forall a' e', a' ∈ l -> f a' = Raise e' -> e' = e) ->
  for_each f l = Raise e.
Proof.
  intros Hin Ha Hall. induction l as [|a0 l IH]; [by inversion Hin|].
  simpl. destruct (f a0) as [b|e'] eqn:Ha0; simpl.
  - rewrite IH; [done| |].
    + inversion Hin; subst; [congruence|done].
    + intros a' e' Hin'. apply Hall. by right.
  - f_equal. apply (Hall a0); [by left|done].
Qed.

Lemma idx_surj (k : nat) : k < 25 -> exists i j, i < 5 /\ j < 5 /\ idx i j = k.
Proof.
  intros Hk. exists (k mod 5), (4 - k / 5). unfold idx.
  pose proof (Nat.mod_upper_bound k 5 ltac:(lia)).
  pose proof (Nat.div_mod_eq k 5).
  assert (k / 5 < 5) by (apply Nat.Div0.div_lt_upper_bound; lia).
  repeat split; lia.
Qed.

Section Render.
Context `{Textwrap, Matplotlib}.

Lemma draw_cell_Ok (slots : list pyval) (i j : nat) :
  length slots = 25 -> Forall (fun v => is_str v = true) slots ->
  i < 5 -> j < 5 ->
  draw_cell slots i j = Ok (cell_of slots (i, j)).
Proof.
  intros Hlen Hstr Hi Hj. unfold draw_cell, cell_of, getitem. simpl.
  assert (Hk : idx i j < length slots) by (unfold idx; lia).
  destruct (lookup_lt_is_Some_2 slots _ Hk) as [v Hv]. rewrite Hv. simpl.
  assert (Hs : is_str v = true).
  { apply (proj1 (Forall_forall _ _) Hstr). by eapply list_elem_of_lookup_2. }
  by apply is_str_spec in Hs as [s ->].
Qed.

Lemma draw_cell_Raise (slots : list pyval) (i j : nat) (e : pyexc) :
  length slots = 25 -> i < 5 -> j < 5 ->
  draw_cell slots i j = Raise e ->
  e = AttributeError
  /\ exists v, slots !! idx i j = Some v /\ is_str v = false.
Proof.
  intros Hlen Hi Hj. unfold draw_cell, getitem.
  assert (Hk : idx i j < length slots) by (unfold idx; lia).
  destruct (lookup_lt_is_Some_2 slots _ Hk) as [v Hv]. rewrite Hv. simpl.
  destruct v; intros [= <-]; (split; [done|]); by eexists.
Qed.

Lemma draw_cell_not_str (slots : list pyval) (i j : nat) (v : pyval) :
  slots !! idx i j = Some v -> is_str v = false ->
  draw_cell slots i j = Raise AttributeError.
Proof.
  intros Hv Hstr. unfold draw_cell, getitem. rewrite Hv. simpl.
  by destruct v.
Qed.

(** With 25 slots that all hold a [str] the loops raise nothing, and the
    result of the renderer is the result of the layout. *)
Lemma render_str (slots : list pyval) (title : pystr) :
  length slots = 25 -> Forall (fun v => is_str v = true) slots ->
  render slots title
  = (_ ← tight_layout (figure_of slots title); Ok (figure_of slots title)).
Proof.
  intros Hlen Hstr. unfold render.
  rewrite (for_each_Ok _ (fun i => (fun j => cell_of slots (i, j)) <$> seq 0 5)).
  - reflexivity.
  - apply Forall_forall. intros i Hi%elem_of_seq.
    apply for_each_Ok. apply Forall_forall. intros j Hj%elem_of_seq.
    apply draw_cell_Ok; auto; lia.
Qed.

(** A slot that holds no [str] stops the loops. *)
Lemma render_Raise (slots : list pyval) (title : pystr) :
  length slots = 25 -> ~ Forall (fun v => is_str v = true) slots ->
  render slots title = Raise AttributeError.
Proof.
  intros Hlen Hstr.
  apply not_Forall_Exists in Hstr; [|intros v; apply _].
  apply Exists_exists in Hstr as (v & Hin & Hv).
  apply list_elem_of_lookup in Hin as [k Hk].
  apply not_true_is_false in Hv.
  destruct (idx_surj k) as (i & j & Hi & Hj & <-).
  { rewrite <- Hlen. by eapply lookup_lt_Some. }
  unfold render.
  rewrite (for_each_Raise _ _ AttributeError i); [done| | |].
  - apply elem_of_seq. lia.
  - apply (for_each_Raise _ _ AttributeError j).
    + apply elem_of_seq. lia.
    + by eapply draw_cell_not_str.
    + intros j' e' Hj'%elem_of_seq He'.
      by apply draw_cell_Raise in He' as [-> _]; [|done|lia..].
  - intros i' e' Hi'%elem_of_seq He'.
    apply for_each_Raise_inv in He' as (j' & Hj'%elem_of_seq & He').
    by apply draw_cell_Raise in He' as [-> _]; [|done|lia..].
Qed.

Lemma render_Ok_inv (slots : list pyval) (title : pystr) (fig : Figure) :
  length slots = 25 -> render slots title = Ok fig ->
  Forall (fun v => is_str v = true) slots
  /\ fig = figure_of slots title
  /\ tight_layout fig = Ok ().
Proof.
  intros Hlen Hfig.
  destruct (decide (Forall (fun v => is_str v = true) slots)) as [Hstr|Hstr].
  - split; [done|]. rewrite render_str in Hfig by done.
    destruct (tight_layout (figure_of slots title)) as [[]|e] eqn:Hl;
      [|done].
    injection Hfig as <-. done.
  - by rewrite render_Raise in Hfig.
Qed.

Lemma all_slots_with_free_is_str (items : list pyval) (g : rng) :
  Forall (fun v => is_str v = true) (all_slots_with_free items g)
  <-> Forall (fun v => is_str v = true) (take 24 items).
Proof.
  unfold all_slots_with_free. rewrite list_insert_Permutation.
  rewrite Forall_cons, all_slots_shuffled_Permutation. unfold all_slots.
  destruct (Nat.ltb_spec (length items) 24) as [Hlt|Hge].
  - rewrite Forall_app, take_ge by lia. split; [by intros (_ & ? & _)|].
    intros Hitems. split; [done|]. split; [done|]. by apply Forall_replicate.
  - split; [by intros [_ ?]|done].
Qed.

(** What a returned figure tells: the items were a list whose first 24
    elements are strings, and the figure is the one of the 25 slots. *)
Lemma generate_bingo_card_Ok_inv
    (items : pyval) (title : pystr) (g : rng) (fig : Figure) :
  generate_bingo_card items title g = Ok fig ->
  exists l,
    items = PList l
    /\ Forall (fun v => is_str v = true) (take 24 l)
    /\ fig = figure_of (all_slots_with_free l g) title
    /\ tight_layout fig = Ok ().
Proof.
  destruct items as [| | | | |l|d]; simpl; try done.
  - intros Hfig. exists l. split; [done|].
    apply render_Ok_inv in Hfig as (Hstr & -> & Hl);
      [|apply length_all_slots_with_free].
    by rewrite <- all_slots_with_free_is_str.
  - by destruct (_ <? _).
Qed.

(** C3, as the code has it.  A card that is rendered has 25 squares; the
    one with the distinct fill color is the square of column 2, row 2 of
    the zero-indexed grid (the third of each), and it shows the wrapped
    free-space label. *)
Theorem free_space_position
    (items : pyval) (title : pystr) (g : rng) (fig : Figure) :
  generate_bingo_card items title g = Ok fig ->
  length (fig_cells fig) = 25
  /\ (forall c, c ∈ fig_cells fig ->
        cell_i c < 5 /\ cell_j c < 5
        /\ (cell_facecolor c = py "#fff0f3" <-> cell_i c = 2 /\ cell_j c = 2))
  /\ exists c,
       filter (fun c => cell_i c = 2 /\ cell_j c = 2) (fig_cells fig) = [c]
       /\ cell_facecolor c = py "#fff0f3"
       /\ cell_text c = join [LF] (textwrap_wrap FREE_LABEL 15).
Proof.
  intros (l & -> & _ & -> & _)%generate_bingo_card_Ok_inv.
  cbn [figure_of fig_cells]. split; [done|]. split.
  - intros c (p & -> & Hp)%list_elem_of_fmap. simpl.
    revert p Hp. apply Forall_forall. unfold grid. simpl.
    repeat constructor; simpl; try lia; try (vm_compute; done);
      intros [? ?]; try lia.
    all: vm_compute; done.
  - eexists. split; [reflexivity|]. split; [done|]. simpl.
    unfold idx. simpl. by rewrite all_slots_with_free_12.
Qed.

End Render.

Lemma free_space_position_witness :
  length (fig_cells sample_figure) = 25
  /\ (forall c, c ∈ fig_cells sample_figure ->
        cell_i c < 5 /\ cell_j c < 5
        /\ (cell_facecolor c = py "#fff0f3" <-> cell_i c = 2 /\ cell_j c = 2))
  /\ exists c,
       filter (fun c => cell_i c = 2 /\ cell_j c = 2) (fig_cells sample_figure)
       = [c]
       /\ cell_facecolor c = py "#fff0f3"
       /\ cell_text c = join [LF] (@textwrap_wrap sample_wrap FREE_LABEL 15).
Proof.
  apply (@free_space_position sample_wrap layout_accepting
           (PList [PStr (py "Ski"); PStr (py "Read")]) (py "2025 GOALS")
           [3; 1; 4] sample_figure).
  reflexivity.
Defined.

(** C3, as stated: the square of column 3, row 3 is not the free space; it
    is drawn white and shows slot 8. *)
Lemma free_space_not_at_3_3 :
  ~ (idx 3 3 = 12 /\ face_color (idx 3 3) = py "#fff0f3").
Proof. vm_compute. intros [? _]. done. Qed.

(** C4, as stated: the label at index 12 is not the text with a space. *)
Lemma free_label_not_with_space :
  all_slots_with_free [] [] !! 12
  <> Some (PStr (py "FREE: Appreciate Life")).
Proof. vm_compute. intros ?. done. Qed.

(** C4, as the code has it.  The slot at index 12 always holds the constant
    label whose two parts are separated by a line feed; the label of the
    specification is the same text with a space for the line feed. *)
Theorem free_label_literal (items : list pyval) (g : rng) :
  all_slots_with_free items g !! 12
  = Some (PStr (py "FREE:" ++ [10%N] ++ py "Appreciate Life"))
  /\ FREE_LABEL <> py "FREE: Appreciate Life"
  /\ (fun c => if (c =? LF)%N then chr " " else c) <$> FREE_LABEL
     = py "FREE: Appreciate Life".
Proof.
  split; [apply all_slots_with_free_12|]. split; [|done].
  vm_compute. intros ?. done.
Qed.

(** ** JSON text of a list of strings *)

Example json_loads_examples :
  @json_loads interpreter_1000 (py " [1, -2.5e3, null, true, {}] ")
  = Ok (PList [PInt 1; PFloat (py "-2.5e3"); PNone; PBool true; PDict []])
  /\ @json_loads interpreter_1000
       (py "{" ++ quoted "a" ++ py ": 1, " ++ quoted "b" ++ py ": [], "
        ++ quoted "a" ++ py ": 2}")
     = Ok (PDict [(py "a", PInt 2); (py "b", PList [])])
  /\ @json_loads interpreter_1000 (quoted "caf\u00e9 \ud83c\udfaf\n")
     = Ok (PStr (py "caf" ++ [233; 32; 127919; 10]%N))
  /\ @json_loads interpreter_1000 (py "[1,]") = Raise JSONDecodeError
  /\ @json_loads interpreter_1000 (py "01") = Raise JSONDecodeError
  /\ @json_loads interpreter_1000 (py "[1] x") = Raise JSONDecodeError
  /\ @json_loads interpreter_1000 [] = Raise JSONDecodeError
  /\ @json_loads (1 : Interpreter) (py "[[[1]]]") = Raise RecursionError.
Proof. vm_compute. repeat split. Qed.

Example float_nonzero_examples :
  float_nonzero (py "0.0") = false
  /\ float_nonzero (py "1e-400") = false
  /\ float_nonzero (py "2e-324") = false
  /\ float_nonzero (py "3e-324") = true
  /\ float_nonzero (py "1E+2") = true
  /\ float_nonzero (py "NaN") = true.
Proof. vm_compute. repeat split. Qed.







Lemma control_char_hex (c : pychar) :
  (c <= 31)%N ->
  hex4 (chr "0") (chr "0") (hex_char (c / 16)) (hex_char (c mod 16)) = Some c
  /\ is_high_surrogate c = false.
Proof.
  intros Hc.
  assert (Hall : Forall (fun c =>
            hex4 (chr "0") (chr "0") (hex_char (c / 16)) (hex_char (c mod 16))
            = Some c /\ is_high_surrogate c = false)
            (N.of_nat <$> seq 0 32)).
  { apply (bool_decide_unpack _). by vm_compute. }
  apply (proj1 (Forall_forall _ _) Hall).
  apply list_elem_of_fmap. exists (N.to_nat c). split; [lia|].
  apply elem_of_seq. lia.
Qed.

Lemma scanstring_u (h1 h2 h3 h4 : pychar) (u : N) (rest : pystr) :
  hex4 h1 h2 h3 h4 = Some u -> is_high_surrogate u = false ->
  scanstring (BACKSLASH :: chr "u" :: h1 :: h2 :: h3 :: h4 :: rest)
  = cons_char u (scanstring rest).
Proof. intros Hhex Hsur. simpl. by rewrite Hhex, Hsur. Qed.

Lemma scanstring_pair
    (h1 h2 h3 h4 g1 g2 g3 g4 : pychar) (u u2 : N) (rest : pystr) :
  hex4 h1 h2 h3 h4 = Some u -> is_high_surrogate u = true ->
  hex4 g1 g2 g3 g4 = Some u2 -> is_low_surrogate u2 = true ->
  scanstring (BACKSLASH :: chr "u" :: h1 :: h2 :: h3 :: h4
              :: BACKSLASH :: chr "u" :: g1 :: g2 :: g3 :: g4 :: rest)
  = cons_char (join_surrogates u u2) (scanstring rest).
Proof. intros Hu Hhigh Hu2 Hlow. simpl. by rewrite Hu, Hhigh, Hu2, Hlow. Qed.

Lemma scanstring_short (e c : pychar) (rest : pystr) :
  escape_char e = Some c ->
  scanstring (BACKSLASH :: e :: rest) = cons_char c (scanstring rest).
Proof.
  intros He. cbn [scanstring].
  change (BACKSLASH =? QUOTE)%N with false.
  change (BACKSLASH =? BACKSLASH)%N with true. cbv iota.
  destruct (N.eqb_spec e (chr "u")) as [->|_]; [done|].
  by rewrite He.
Qed.

Lemma scanstring_raw (c : pychar) (rest : pystr) :
  c <> QUOTE -> c <> BACKSLASH -> (31 < c)%N ->
  scanstring (c :: rest) = cons_char c (scanstring rest).
Proof.
  intros Hq Hb Hc. cbn [scanstring].
  destruct (N.eqb_spec c QUOTE); [done|].
  destruct (N.eqb_spec c BACKSLASH); [done|].
  destruct (N.leb_spec c 31); [lia|done].
Qed.

(** The decoder reads back what a string body denotes. *)
Lemma scanstring_body (text s rest : pystr) :
  string_body text s -> scanstring (text ++ QUOTE :: rest) = Ok (s, rest).
Proof.
  induction 1 as [|c text s Hq Hb Hc _ IH|e c text s He _ IH
                  |h1 h2 h3 h4 u text s Hu Hhigh _ IH
                  |h1 h2 h3 h4 g1 g2 g3 g4 u u2 text s Hu Hhigh Hu2 Hlow _ IH];
    cbn [app].
  - reflexivity.
  - by rewrite scanstring_raw, IH.
  - by rewrite (scanstring_short e c), IH.
  - by rewrite (scanstring_u _ _ _ _ u), IH.
  - by rewrite (scanstring_pair _ _ _ _ _ _ _ _ u u2), IH.
Qed.

Lemma skip_ws_app (w : pystr) (c : pychar) (t : pystr) :
  whitespace w -> is_ws c = false -> skip_ws (w ++ c :: t) = c :: t.
Proof.
  intros Hw Hc. induction Hw as [|x w Hx _ IH]; simpl; [by rewrite Hc|].
  by rewrite Hx.
Qed.

(** Equations between lists that differ in how [++] is nested. *)
Ltac list_assoc :=
  repeat (progress cbn [app] || rewrite <- app_assoc); reflexivity.

Lemma array_elements_head (text : pystr) (ss : list pystr) :
  array_elements text ss -> exists t, text = QUOTE :: t.
Proof. destruct 1; by eexists. Qed.

Lemma array_elements_last (text : pystr) (ss : list pystr) :
  array_elements text ss -> exists t, text = t ++ [chr "]"].
Proof.
  induction 1 as [body s w _ _|body s w1 w2 text ss _ _ _ _ [t ->]].
  - exists (QUOTE :: body ++ QUOTE :: w). list_assoc.
  - exists (QUOTE :: body ++ QUOTE :: w1 ++ chr "," :: w2 ++ t). list_assoc.
Qed.

Lemma array_elements_length (text : pystr) (ss : list pystr) :
  array_elements text ss -> length ss <= length text.
Proof.
  induction 1; simpl; rewrite ?length_app; simpl;
    rewrite ?length_app; simpl; rewrite ?length_app; lia.
Qed.

Lemma scan_once_string (fuel depth : nat) (body s rest : pystr) :
  string_body body s ->
  scan_once (S fuel) depth (QUOTE :: body ++ QUOTE :: rest)
  = Ok (PStr s, rest).
Proof.
  intros Hbody. cbn [scan_once].
  change (QUOTE =? QUOTE)%N with true. cbv iota.
  by rewrite (scanstring_body body s).
Qed.

Lemma parse_array_last (fuel depth : nat) (s w tail : pystr) (v : pyval) :
  scan_once fuel depth s = Ok (v, w ++ chr "]" :: tail) -> whitespace w ->
  parse_array (S fuel) depth s = Ok ([v], tail).
Proof.
  intros Hv Hw. cbn [parse_array]. rewrite Hv. cbn [mbind result_bind].
  by rewrite skip_ws_app.
Qed.

Lemma parse_array_more
    (fuel depth : nat) (s w1 w2 t : pystr) (v : pyval) :
  scan_once fuel depth s = Ok (v, w1 ++ chr "," :: w2 ++ QUOTE :: t) ->
  whitespace w1 -> whitespace w2 ->
  parse_array (S fuel) depth s
  = '(values, rest) ← parse_array fuel depth (QUOTE :: t);
    Ok (v :: values, rest).
Proof.
  intros Hv Hw1 Hw2. cbn [parse_array]. rewrite Hv. cbn [mbind result_bind].
  rewrite skip_ws_app by done.
  change (chr "," =? chr "]")%N with false.
  change (chr "," =? chr ",")%N with true. cbv iota.
  by rewrite skip_ws_app.
Qed.

Lemma parse_array_text (text : pystr) (ss : list pystr) :
  array_elements text ss ->
  forall fuel depth tail,
    length ss < fuel ->
    parse_array fuel depth (text ++ tail) = Ok (PStr <$> ss, tail).
Proof.
  induction 1 as [body s w Hbody Hw|body s w1 w2 text ss Hbody Hw1 Hw2 Htext IH];
    intros fuel depth tail Hfuel.
  - destruct fuel as [|[|fuel]]; [simpl in Hfuel; lia..|].
    apply (parse_array_last _ _ _ w); [|done].
    replace ((QUOTE :: body ++ QUOTE :: w ++ [chr "]"]) ++ tail)
      with (QUOTE :: body ++ QUOTE :: (w ++ chr "]" :: tail))
      by list_assoc.
    by apply scan_once_string.
  - destruct fuel as [|[|fuel]]; [simpl in Hfuel; lia..|].
    destruct (array_elements_head _ _ Htext) as [t Ht].
    rewrite (parse_array_more _ _ _ w1 w2 (t ++ tail) (PStr s)); [|  |done..].
    + change (QUOTE :: t ++ tail) with ((QUOTE :: t) ++ tail).
      rewrite <- Ht, IH; [done|simpl in *; lia].
    + replace ((QUOTE :: body ++ QUOTE :: w1 ++ chr "," :: w2 ++ text) ++ tail)
        with (QUOTE :: body
              ++ QUOTE :: (w1 ++ chr "," :: w2 ++ QUOTE :: t ++ tail))
        by (rewrite Ht; list_assoc).
      by apply scan_once_string.
Qed.

Lemma scan_once_array (fuel depth : nat) (w s tail : pystr) (c : pychar) :
  whitespace w -> is_ws c = false ->
  scan_once (S fuel) (S depth) (chr "[" :: w ++ c :: s)
  = (if (c =? chr "]")%N then Ok (PList [], s)
     else '(values, rest) ← parse_array fuel depth (c :: s);
          Ok (PList values, rest)).
Proof.
  intros Hw Hc. cbn [scan_once].
  change (chr "[" =? QUOTE)%N with false.
  change (chr "[" =? chr "{")%N with false.
  change (chr "[" =? chr "[")%N with true. cbv iota.
  by rewrite skip_ws_app.
Qed.

Lemma scan_once_array_text (text : pystr) (ss : list pystr) :
  array_text text ss ->
  forall fuel depth tail,
    length ss < fuel ->
    scan_once (S fuel) (S depth) (text ++ tail)
    = Ok (PList (PStr <$> ss), tail).
Proof.
  destruct 1 as [w Hw|w text ss Hw Htext]; intros fuel depth tail Hfuel.
  - replace ((chr "[" :: w ++ [chr "]"]) ++ tail)
      with (chr "[" :: w ++ chr "]" :: tail) by list_assoc.
    by rewrite scan_once_array.
  - destruct (array_elements_head _ _ Htext) as [t Ht].
    replace ((chr "[" :: w ++ text) ++ tail)
      with (chr "[" :: w ++ QUOTE :: (t ++ tail))
      by (rewrite Ht; list_assoc).
    rewrite scan_once_array by done.
    change (QUOTE =? chr "]")%N with false. cbv iota.
    change (QUOTE :: t ++ tail) with ((QUOTE :: t) ++ tail).
    by rewrite <- Ht, (parse_array_text _ _ Htext).
Qed.

Lemma array_text_length (text : pystr) (ss : list pystr) :
  array_text text ss -> length ss < length text.
Proof.
  destruct 1 as [w Hw|w text ss Hw Htext]; simpl; [lia|].
  apply array_elements_length in Htext. rewrite length_app. lia.
Qed.

Lemma array_text_ends (text : pystr) (ss : list pystr) :
  array_text text ss -> exists t, text = chr "[" :: t ++ [chr "]"].
Proof.
  destruct 1 as [w Hw|w text ss Hw Htext]; [by exists w|].
  destruct (array_elements_last _ _ Htext) as [t ->].
  exists (w ++ t). by rewrite <- app_assoc.
Qed.

(** Every JSON text of an array of strings decodes to these strings. *)
Lemma json_loads_array_text `{Interpreter} (text : pystr) (ss : list pystr) :
  array_text text ss -> json_loads text = Ok (PList (PStr <$> ss)).
Proof.
  intros Htext. pose proof (array_text_length _ _ Htext) as Hlen.
  destruct (array_text_ends _ _ Htext) as [t Ht].
  unfold json_loads.
  replace (startswith text [65279%N]) with false by (by rewrite Ht).
  replace (skip_ws text) with text by (by rewrite Ht).
  replace (2 * length text + 1) with (S (2 * length text)) by lia.
  rewrite <- (app_nil_r text) at 2.
  rewrite (scan_once_array_text _ _ Htext) by lia. done.
Qed.

(** The serializer of [Reference] writes such a text. *)
Lemma string_body_json_escape (s : pystr) : string_body (s ≫= json_escape) s.
Proof.
  induction s as [|c s IH]; [constructor|].
  rewrite bind_cons. unfold json_escape at 1.
  destruct (N.eqb_spec c QUOTE) as [->|Hq]; [by apply body_escape|].
  destruct (N.eqb_spec c BACKSLASH) as [->|Hb]; [by apply body_escape|].
  destruct (N.leb_spec c 31) as [Hc|Hc].
  - destruct (control_char_hex c Hc) as [Hhex Hsur]. by apply body_hex.
  - by apply body_raw.
Qed.

Lemma array_text_json_array (ss : list pystr) : array_text (json_array ss) ss.
Proof.
  unfold json_array. destruct ss as [|s ss].
  { apply (array_empty []). constructor. }
  apply (array_nonempty []); [constructor|].
  revert s. induction ss as [|s2 ss IH]; intros s.
  - replace (elements [s] ++ py "]")
      with (QUOTE :: (s ≫= json_escape) ++ QUOTE :: [] ++ [chr "]"])
      by (unfold elements, json_string; cbn [fmap list_fmap join];
          list_assoc).
    apply elements_last; [apply string_body_json_escape|constructor].
  - replace (elements (s :: s2 :: ss) ++ py "]")
      with (QUOTE :: (s ≫= json_escape)
            ++ QUOTE :: [] ++ chr "," :: [chr " "]
            ++ (elements (s2 :: ss) ++ py "]")).
    2: { change (elements (s :: s2 :: ss))
           with (json_string s ++ py ", " ++ elements (s2 :: ss)).
         unfold json_string. list_assoc. }
    apply elements_more;
      [apply string_body_json_escape|constructor|by repeat constructor|].
    apply IH.
Qed.

(** ** Stripping the code fence *)

Example split_examples :
  split (py "```json[1]```") FENCE = [ []; py "json[1]"; [] ]
  /\ split (py "a``b") FENCE = [ py "a``b" ]
  /\ split (py "````x") FENCE = [ []; py "`x" ]
  /\ strip (py "  a b " ++ [LF; 8195%N]) = py "a b".
Proof. vm_compute. repeat split. Qed.


Lemma lstrip_head (c : pychar) (s : pystr) :
  isspace c = false -> lstrip (c :: s) = c :: s.
Proof. intros Hc. simpl. by rewrite Hc. Qed.

Lemma rstrip_last (s : pystr) (c : pychar) :
  isspace c = false -> rstrip (s ++ [c]) = s ++ [c].
Proof.
  intros Hc. unfold rstrip. rewrite reverse_snoc, lstrip_head by done.
  by rewrite reverse_cons, reverse_involutive.
Qed.

Lemma rstrip_space (s : pystr) (c : pychar) :
  isspace c = true -> rstrip (s ++ [c]) = rstrip s.
Proof.
  intros Hc. unfold rstrip. rewrite reverse_snoc. simpl. by rewrite Hc.
Qed.

Lemma split_go_nonempty (sep : pystr) (skip : nat) (cur s : pystr) :
  split_go sep skip cur s <> [].
Proof.
  revert skip cur.
  induction s as [|c s IH]; intros skip cur; cbn [split_go]; [done|].
  destruct skip; [|done]. by destruct (startswith _ _).
Qed.

(** [split(...)[1]] on line 34 is always within the list. *)
Lemma strip_code_block_Ok (content : pystr) :
  exists text, strip_code_block content = Ok text.
Proof.
  unfold strip_code_block.
  destruct (startswith (strip content) FENCE) eqn:Hf; [|by eexists].
  destruct (strip content) as [|c s]; [done|].
  unfold split. cbn [split_go]. rewrite Hf.
  pose proof (split_go_nonempty FENCE (Nat.pred (length FENCE)) [] s) as Hne.
  destruct (split_go _ _ _ s) as [|piece pieces]; [done|].
  by eexists.
Qed.

Lemma lstrip_spaces (s : pystr) :
  Forall (fun c => isspace c = true) s -> lstrip s = [].
Proof. induction 1 as [|c s Hc _ IH]; simpl; [done|]. by rewrite Hc. Qed.

Lemma strip_spaces (s : pystr) :
  Forall (fun c => isspace c = true) s -> strip s = [].
Proof. intros Hs. unfold strip. by rewrite lstrip_spaces. Qed.

(** A character that differs from every character of a literal. *)
Ltac not_in_literal :=
  let Hin := fresh "Hin" in
  let Hin' := fresh "Hin" in
  intros Hin; vm_compute in Hin;
  repeat (inversion Hin as [|? ? ? Hin']; clear Hin; rename Hin' into Hin).

Lemma lstrip_decomp (s : pystr) :
  exists w, Forall (fun c => isspace c = true) w /\ s = w ++ lstrip s.
Proof.
  induction s as [|c s (w & Hw & IH)]; [by exists []|]. simpl.
  destruct (isspace c) eqn:Hc; [|by exists []].
  exists (c :: w). split; [by constructor|]. simpl. by f_equal.
Qed.

Lemma lstrip_spaces_app (w s : pystr) :
  Forall (fun c => isspace c = true) w -> lstrip (w ++ s) = lstrip s.
Proof. induction 1 as [|c w Hc _ IH]; simpl; [done|]. by rewrite Hc. Qed.

Lemma lstrip_app_spaces (s w : pystr) :
  Forall (fun c => isspace c = true) w ->
  lstrip (s ++ w) = match lstrip s with [] => [] | _ :: _ => lstrip s ++ w end.
Proof.
  intros Hw. induction s as [|c s IH]; simpl; [by apply lstrip_spaces|].
  by destruct (isspace c).
Qed.

Lemma lstrip_app_nonspace (a b : pystr) (c : pychar) :
  isspace c = false -> lstrip (a ++ c :: b) = lstrip a ++ c :: b.
Proof.
  intros Hc. induction a as [|x a IH]; simpl; [by rewrite Hc|].
  by destruct (isspace x).
Qed.

Lemma rstrip_app_nonspace (a b : pystr) (c : pychar) :
  isspace c = false -> rstrip (a ++ c :: b) = a ++ c :: rstrip b.
Proof.
  intros Hc. unfold rstrip.
  rewrite reverse_app, reverse_cons, <- app_assoc. simpl.
  rewrite lstrip_app_nonspace by done.
  rewrite reverse_app, reverse_cons, reverse_involutive, <- app_assoc. done.
Qed.

Lemma rstrip_app_spaces (s w : pystr) :
  Forall (fun c => isspace c = true) w -> rstrip (s ++ w) = rstrip s.
Proof.
  intros Hw. unfold rstrip. rewrite reverse_app, lstrip_spaces_app; [done|].
  by apply Forall_reverse.
Qed.

Lemma rstrip_decomp (s : pystr) :
  exists w, Forall (fun c => isspace c = true) w /\ s = rstrip s ++ w.
Proof.
  destruct (lstrip_decomp (reverse s)) as (w & Hw & Hs).
  exists (reverse w). split; [by apply Forall_reverse|].
  unfold rstrip. rewrite <- reverse_app, <- Hs. by rewrite reverse_involutive.
Qed.

Lemma strip_spaces_around (w1 s w2 : pystr) :
  Forall (fun c => isspace c = true) w1 ->
  Forall (fun c => isspace c = true) w2 ->
  strip (w1 ++ s ++ w2) = strip s.
Proof.
  intros Hw1 Hw2. unfold strip.
  rewrite lstrip_spaces_app, lstrip_app_spaces by done.
  destruct (lstrip s) eqn:Hs; [done|]. by rewrite rstrip_app_spaces.
Qed.

Lemma strip_rstrip (s : pystr) : strip (rstrip s) = strip s.
Proof.
  destruct (rstrip_decomp s) as (w & Hw & Hs).
  rewrite Hs at 2.
  by rewrite <- (strip_spaces_around [] (rstrip s) w).
Qed.

Lemma startswith_app (p s : pystr) : startswith (p ++ s) p = true.
Proof.
  induction p as [|a p IH]; simpl; [by destruct s|].
  by rewrite N.eqb_refl.
Qed.

Lemma split_go_fence (cur u rest : pystr) :
  chr "`" ∉ u ->
  split_go FENCE 0 cur (u ++ FENCE ++ rest)
  = (reverse cur ++ u) :: split_go FENCE 0 [] rest.
Proof.
  revert cur. induction u as [|c u IH]; intros cur Hu.
  - rewrite app_nil_r.
    assert (Hs : startswith (chr "`" :: py "``" ++ rest) FENCE = true)
      by apply (startswith_app FENCE rest).
    change ([] ++ FENCE ++ rest) with (chr "`" :: py "``" ++ rest).
    cbn [split_go]. rewrite Hs. reflexivity.
  - apply not_elem_of_cons in Hu as [Hc Hu].
    cbn [app split_go].
    replace (startswith (c :: u ++ FENCE ++ rest) FENCE) with false.
    + rewrite IH by done. by rewrite reverse_cons, <- app_assoc.
    + symmetry. cbn. apply andb_false_iff. left.
      apply N.eqb_neq. done.
Qed.

Lemma split_go_fence_head (cur rest : pystr) :
  split_go FENCE 0 cur (FENCE ++ rest)
  = reverse cur :: split_go FENCE 0 [] rest.
Proof.
  pose proof (split_go_fence cur [] rest (not_elem_of_nil _)) as Hs.
  by rewrite app_nil_r in Hs.
Qed.

Lemma split_go_no_fence (cur u : pystr) :
  chr "`" ∉ u -> split_go FENCE 0 cur u = [reverse cur ++ u].
Proof.
  revert cur. induction u as [|c u IH]; intros cur Hu.
  - by rewrite app_nil_r.
  - apply not_elem_of_cons in Hu as [Hc Hu].
    cbn [split_go].
    replace (startswith (c :: u) FENCE) with false.
    + rewrite IH by done. by rewrite reverse_cons, <- app_assoc.
    + symmetry. cbn. apply andb_false_iff. left.
      apply N.eqb_neq. done.
Qed.

Lemma strip_fence_head (s : pystr) :
  strip (FENCE ++ s) = FENCE ++ rstrip s.
Proof.
  unfold strip. change (FENCE ++ s) with (chr "`" :: py "`" ++ chr "`" :: s).
  rewrite lstrip_head by done.
  change (chr "`" :: py "`" ++ chr "`" :: s) with (py "``" ++ chr "`" :: s).
  by rewrite rstrip_app_nonspace.
Qed.

(** Lines 33-37 on a response that opens with a fence: the text up to the
    next fence, without a leading json tag, stripped. *)
Lemma strip_code_block_fence (tag body rest : pystr) :
  chr "`" ∉ tag ++ body ->
  strip_code_block (FENCE ++ (tag ++ body) ++ FENCE ++ rest)
  = Ok (strip (if startswith (tag ++ body) (py "json")
               then drop 4 (tag ++ body) else tag ++ body)).
Proof.
  intros Hbody. unfold strip_code_block.
  rewrite strip_fence_head, startswith_app.
  assert (Hr : exists rest',
             rstrip ((tag ++ body) ++ FENCE ++ rest)
             = (tag ++ body) ++ FENCE ++ rest').
  { exists (rstrip rest).
    change (FENCE ++ ?x) with (py "``" ++ chr "`" :: x).
    rewrite !app_assoc. by apply rstrip_app_nonspace. }
  destruct Hr as [rest' ->].
  unfold split. rewrite split_go_fence_head.
  by rewrite split_go_fence.
Qed.

Lemma strip_array_text (text : pystr) (ss : list pystr) :
  array_text text ss ->
  strip text = text /\ strip ([LF] ++ text ++ [LF]) = text.
Proof.
  intros [t ->]%array_text_ends.
  assert (Hs : strip (chr "[" :: t ++ [chr "]"]) = chr "[" :: t ++ [chr "]"]).
  { unfold strip. rewrite lstrip_head by done.
    by apply (rstrip_last (chr "[" :: t)). }
  split; [done|].
  rewrite strip_spaces_around; [done|by repeat constructor..].
Qed.

(** ** The decoder never runs out of fuel *)

Lemma skip_ws_length (s : pystr) : length (skip_ws s) <= length s.
Proof.
  induction s as [|c s IH]; simpl; [done|]. destruct (is_ws c); simpl; lia.
Qed.

Lemma cons_char_Ok c r str rest :
  cons_char c r = Ok (str, rest) ->
  exists str', r = Ok (str', rest).
Proof.
  destruct r as [[str' rest']|e]; simpl; intros Heq; simplify_eq. by eexists.
Qed.

Lemma cons_char_Raise c r e : cons_char c r = Raise e -> r = Raise e.
Proof. destruct r as [[str' rest']|e']; simpl; intros Heq; by simplify_eq. Qed.

Lemma scanstring_consumes (n : nat) (s : pystr) :
  length s <= n ->
  (forall str r, scanstring s = Ok (str, r) -> length r < length s)
  /\ (forall e, scanstring s = Raise e -> e = JSONDecodeError).
Proof.
  revert s. induction n as [|n IH]; intros s Hn.
  { destruct s; [|simpl in Hn; lia]. split; [done|]. by intros e [= <-]. }
  assert (Hrec : forall c s',
            length s' < length s ->
            (forall str r,
               cons_char c (scanstring s') = Ok (str, r) ->
               length r < length s)
            /\ (forall e,
                  cons_char c (scanstring s') = Raise e ->
                  e = JSONDecodeError)).
  { intros c s' Hs'. split.
    - intros str r [str' Hstr']%cons_char_Ok.
      apply (IH s' ltac:(lia)) in Hstr'. lia.
    - intros e Hr%cons_char_Raise. by apply (IH s' ltac:(lia)). }
  assert (Hfail : (forall str r,
                     @Raise (pystr * pystr) JSONDecodeError = Ok (str, r) ->
                     length r < length s)
                  /\ (forall e,
                        @Raise (pystr * pystr) JSONDecodeError = Raise e ->
                        e = JSONDecodeError)).
  { split; [done|]. by intros e [= <-]. }
  destruct s as [|c s1]; [done|].
  cbn [scanstring].
  destruct (c =? QUOTE)%N.
  { split; [intros ? ? [= <- <-]; simpl; lia|done]. }
  destruct (c =? BACKSLASH)%N.
  2: { destruct (c <=? 31)%N; [done|]. apply Hrec. simpl; lia. }
  destruct s1 as [|e s2]; [done|].
  destruct (e =? chr "u")%N.
  2: { destruct (escape_char e); [|done]. apply Hrec. simpl; lia. }
  destruct s2 as [|h1 [|h2 [|h3 [|h4 s6]]]]; try done.
  destruct (hex4 h1 h2 h3 h4) as [u|]; [|done].
  pose proof (Hrec u s6 ltac:(simpl; lia)) as Hs6.
  destruct (is_high_surrogate u); [|done].
  destruct s6 as [|b [|e2 [|g1 [|g2 [|g3 [|g4 s12]]]]]]; try done.
  destruct (_ && _); [|done].
  destruct (hex4 g1 g2 g3 g4) as [u2|]; [|done].
  destruct (is_low_surrogate u2); [|done].
  apply Hrec. simpl; lia.
Qed.

Lemma scanstring_length (s str r : pystr) :
  scanstring s = Ok (str, r) -> length r < length s.
Proof. apply (scanstring_consumes _ s (le_n _)). Qed.

Lemma scanstring_raises (s : pystr) (e : pyexc) :
  scanstring s = Raise e -> e = JSONDecodeError.
Proof. apply (scanstring_consumes _ s (le_n _)). Qed.

Lemma span_digits_length (s : pystr) :
  length (span_digits s).2 <= length s.
Proof.
  induction s as [|c s IH]; simpl; [done|].
  destruct (is_digit c); simpl; [|lia].
  destruct (span_digits s); simpl in *; lia.
Qed.

Lemma match_integer_length (s integer rest : pystr) :
  match_integer s = Some (integer, rest) -> length rest < length s.
Proof.
  unfold match_integer.
  assert (Hdigits : forall sign s1,
            length s1 <= length s ->
            match s1 with
            | d :: s2 =>
                if (d =? chr "0")%N then Some (sign ++ [d], s2)
                else if is_digit d
                     then let '(ds, s3) := span_digits s2 in
                          Some (sign ++ d :: ds, s3)
                     else None
            | [] => None
            end = Some (integer, rest) -> length rest < length s).
  { intros sign [|d s2] Hlen Heq; [done|]. simpl in Hlen.
    destruct (d =? chr "0")%N; [simplify_eq; lia|].
    destruct (is_digit d); [|done].
    pose proof (span_digits_length s2).
    destruct (span_digits s2); simplify_eq/=. lia. }
  destruct s as [|c s']; [done|].
  destruct (c =? chr "-")%N.
  - apply (Hdigits [c] s'). simpl; lia.
  - apply (Hdigits [] (c :: s')). simpl; lia.
Qed.

Lemma match_frac_length (s : pystr) : length (match_frac s).2 <= length s.
Proof.
  unfold match_frac. destruct s as [|c [|d s2]]; [done..|].
  destruct (_ && _); [|done].
  pose proof (span_digits_length s2). destruct (span_digits s2); simpl in *; lia.
Qed.

Lemma match_exp_length (s : pystr) : length (match_exp s).2 <= length s.
Proof.
  unfold match_exp. destruct s as [|e s1]; [done|].
  destruct (_ || _); [|done].
  assert (Hsign : forall sign s2,
            length s2 <= length s1 ->
            length (let '(ds, s3) := span_digits s2 in
                    match ds with
                    | [] => ([], e :: s1)
                    | _ :: _ => (e :: sign ++ ds, s3)
                    end).2 <= length (e :: s1)).
  { intros sign s2 Hlen. pose proof (span_digits_length s2).
    destruct (span_digits s2) as [[|d ds] s3]; simpl in *; lia. }
  destruct s1 as [|c s']; [done|].
  destruct (_ || _); apply Hsign; simpl; lia.
Qed.

Lemma match_number_length (s rest : pystr) (r : result pyval) :
  match_number s = Some (r, rest) ->
  length rest < length s /\ forall e, r = Raise e -> e = ValueError.
Proof.
  unfold match_number.
  destruct (match_integer s) as [[integer s1]|] eqn:Hint; [|done]. simpl.
  apply match_integer_length in Hint.
  pose proof (match_frac_length s1).
  destruct (match_frac s1) as [frac s2].
  pose proof (match_exp_length s2).
  destruct (match_exp s2) as [exp s3]. simpl in *.
  destruct (frac ++ exp); intros [= <- <-]; (split; [lia|]); [|done].
  unfold parse_int. intros e. repeat case_match; congruence.
Qed.

Lemma scan_constant_length (s rest : pystr) (v : pyval) :
  scan_constant s = Some (v, rest) -> length rest < length s.
Proof.
  assert (Hkw : forall word v',
            0 < length (py word) ->
            keyword word v' s = Some (v, rest) -> length rest < length s).
  { intros word v' Hword. unfold keyword.
    destruct (startswith s (py word)) eqn:Hs; [|done]. intros [= <- <-].
    rewrite length_drop. destruct s; [|simpl; lia].
    by destruct (py word). }
  unfold scan_constant. intros Heq.
  repeat case_match; simplify_eq; (eapply Hkw; [|eassumption]); simpl; lia.
Qed.

Lemma scan_once_consumes (fuel : nat) :
  (forall depth s v r, scan_once fuel depth s = Ok (v, r) -> length r < length s)
  /\ (forall depth s vs r, parse_array fuel depth s = Ok (vs, r) -> length r < length s)
  /\ (forall depth s ps r, parse_object fuel depth s = Ok (ps, r) -> length r < length s).
Proof.
  induction fuel as [|fuel (IHv & IHa & IHo)]; [done|].
  split; [|split].
  - intros depth [|c s1] v r; cbn [scan_once]; [done|].
    destruct (c =? QUOTE)%N.
    { destruct (scanstring s1) as [[str rest]|] eqn:Hstr; [|done].
      intros [= <- <-].
      apply scanstring_length in Hstr. simpl. lia. }
    destruct (c =? chr "{")%N.
    { destruct depth as [|depth]; [done|].
      pose proof (skip_ws_length s1).
      destruct (skip_ws s1) as [|c2 s2]; [done|].
      destruct (c2 =? chr "}")%N; [intros [= <- <-]; simpl in *; lia|].
      destruct (parse_object fuel depth (c2 :: s2)) as [[ps rest]|] eqn:Ho; [|done].
      intros [= <- <-]. apply IHo in Ho. simpl in *. lia. }
    destruct (c =? chr "[")%N.
    { destruct depth as [|depth]; [done|].
      pose proof (skip_ws_length s1).
      destruct (skip_ws s1) as [|c2 s2]; [done|].
      destruct (c2 =? chr "]")%N; [intros [= <- <-]; simpl in *; lia|].
      destruct (parse_array fuel depth (c2 :: s2)) as [[vs rest]|] eqn:Ha; [|done].
      intros [= <- <-]. apply IHa in Ha. simpl in *. lia. }
    destruct (scan_constant (c :: s1)) as [[v' r']|] eqn:Hc.
    { intros [= <- <-]. by apply scan_constant_length in Hc. }
    destruct (match_number (c :: s1)) as [[res rest]|] eqn:Hn; [|done].
    apply match_number_length in Hn as [Hn _].
    destruct res; [|done]. by intros [= <- <-].
  - intros depth s vs r. cbn [parse_array].
    destruct (scan_once fuel depth s) as [[v s1]|] eqn:Hv; [|done]. cbn [mbind result_bind].
    apply IHv in Hv. pose proof (skip_ws_length s1).
    destruct (skip_ws s1) as [|c s2]; [done|].
    destruct (c =? chr "]")%N; [intros [= <- <-]; simpl in *; lia|].
    destruct (c =? chr ",")%N; [|done].
    destruct (parse_array fuel depth (skip_ws s2)) as [[values rest]|] eqn:Ha; [|done].
    intros [= <- <-]. apply IHa in Ha.
    pose proof (skip_ws_length s2). simpl in *. lia.
  - intros depth [|c s1] ps r; cbn [parse_object]; [done|].
    destruct (c =? QUOTE)%N; [|done].
    destruct (scanstring s1) as [[key s2]|] eqn:Hkey; [|done]. cbn [mbind result_bind].
    apply scanstring_length in Hkey.
    pose proof (skip_ws_length s2).
    destruct (skip_ws s2) as [|c2 s3]; [done|].
    destruct (c2 =? chr ":")%N; [|done].
    pose proof (skip_ws_length s3).
    destruct (scan_once fuel depth (skip_ws s3)) as [[v s4]|] eqn:Hv; [|done]. cbn [mbind result_bind].
    apply IHv in Hv. pose proof (skip_ws_length s4).
    destruct (skip_ws s4) as [|c3 s5]; [done|].
    destruct (c3 =? chr "}")%N; [intros [= <- <-]; simpl in *; lia|].
    destruct (c3 =? chr ",")%N; [|done].
    pose proof (skip_ws_length s5).
    destruct (parse_object fuel depth (skip_ws s5)) as [[pairs rest]|] eqn:Ho; [|done].
    intros [= <- <-]. apply IHo in Ho. simpl in *. lia.
Qed.


Lemma scan_once_raises (fuel : nat) :
  (forall depth s e, scan_once fuel depth s = Raise e -> decoder_exc e)
  /\ (forall depth s e, parse_array fuel depth s = Raise e -> decoder_exc e)
  /\ (forall depth s e, parse_object fuel depth s = Raise e -> decoder_exc e).
Proof.
  assert (Hj : forall A e, @Raise A JSONDecodeError = Raise e -> decoder_exc e)
    by (intros A e [= <-]; by left).
  induction fuel as [|fuel (IHv & IHa & IHo)].
  { repeat split; intros depth s e [= <-]; by right; right; right. }
  split; [|split].
  - intros depth [|c s1] e; cbn [scan_once]; [apply Hj|].
    destruct (c =? QUOTE)%N.
    { destruct (scanstring s1) as [[str rest]|e'] eqn:Hs; [done|].
      intros [= <-]. apply scanstring_raises in Hs. by left. }
    destruct (c =? chr "{")%N.
    { destruct depth as [|depth]; [intros [= <-]; by right; right; left|].
      destruct (skip_ws s1) as [|c2 s2]; [apply Hj|].
      destruct (c2 =? chr "}")%N; [done|].
      destruct (parse_object fuel depth (c2 :: s2)) as [[ps rest]|e'] eqn:Ho; [done|].
      intros [= <-]. by eapply IHo. }
    destruct (c =? chr "[")%N.
    { destruct depth as [|depth]; [intros [= <-]; by right; right; left|].
      destruct (skip_ws s1) as [|c2 s2]; [apply Hj|].
      destruct (c2 =? chr "]")%N; [done|].
      destruct (parse_array fuel depth (c2 :: s2)) as [[vs rest]|e'] eqn:Ha; [done|].
      intros [= <-]. by eapply IHa. }
    destruct (scan_constant (c :: s1)) as [[v' r']|]; [done|].
    destruct (match_number (c :: s1)) as [[res rest]|] eqn:Hn; [|apply Hj].
    apply match_number_length in Hn as [_ Hn].
    destruct res as [v|e']; [done|]. intros [= <-].
    right; left. by apply Hn.
  - intros depth s e. cbn [parse_array].
    destruct (scan_once fuel depth s) as [[v s1]|e'] eqn:Hs;
      cbn [mbind result_bind]; [|intros [= <-]; by eapply IHv].
    destruct (skip_ws s1) as [|c s2]; [apply Hj|].
    destruct (c =? chr "]")%N; [done|].
    destruct (c =? chr ",")%N; [|apply Hj].
    destruct (parse_array fuel depth (skip_ws s2)) as [[values rest]|e'] eqn:Ha;
      [done|].
    intros [= <-]. by eapply IHa.
  - intros depth [|c s1] e; cbn [parse_object]; [apply Hj|].
    destruct (c =? QUOTE)%N; [|apply Hj].
    destruct (scanstring s1) as [[key s2]|e'] eqn:Hkey;
      cbn [mbind result_bind].
    2: { intros [= <-]. apply scanstring_raises in Hkey. by left. }
    destruct (skip_ws s2) as [|c2 s3]; [apply Hj|].
    destruct (c2 =? chr ":")%N; [|apply Hj].
    destruct (scan_once fuel depth (skip_ws s3)) as [[v s4]|e'] eqn:Hs;
      cbn [mbind result_bind]; [|intros [= <-]; by eapply IHv].
    destruct (skip_ws s4) as [|c3 s5]; [apply Hj|].
    destruct (c3 =? chr "}")%N; [done|].
    destruct (c3 =? chr ",")%N; [|apply Hj].
    destruct (parse_object fuel depth (skip_ws s5)) as [[pairs rest]|e'] eqn:Ho;
      [done|].
    intros [= <-]. by eapply IHo.
Qed.

Lemma scan_once_fuel (fuel : nat) :
  (forall depth s,
     2 * length s < fuel -> scan_once fuel depth s <> Raise OutOfFuel)
  /\ (forall depth s, 2 * length s + 1 < fuel ->
        parse_array fuel depth s <> Raise OutOfFuel)
  /\ (forall depth s, 2 * length s + 1 < fuel ->
        parse_object fuel depth s <> Raise OutOfFuel).
Proof.
  induction fuel as [|fuel (IHv & IHa & IHo)]; [repeat split; intros; lia|].
  destruct (scan_once_consumes fuel) as (Cv & Ca & Co).
  split; [|split].
  - intros depth [|c s1] Hfuel; cbn [scan_once]; [done|]. simpl in Hfuel.
    destruct (c =? QUOTE)%N.
    { destruct (scanstring s1) as [[str rest]|e] eqn:Hs; [done|].
      by apply scanstring_raises in Hs as ->. }
    destruct (c =? chr "{")%N.
    { destruct depth as [|depth]; [done|].
      pose proof (skip_ws_length s1).
      destruct (skip_ws s1) as [|c2 s2]; [done|].
      destruct (c2 =? chr "}")%N; [done|].
      pose proof (IHo depth (c2 :: s2) ltac:(simpl in *; lia)).
      by destruct (parse_object fuel depth (c2 :: s2)) as [[ps rest]|[]]. }
    destruct (c =? chr "[")%N.
    { destruct depth as [|depth]; [done|].
      pose proof (skip_ws_length s1).
      destruct (skip_ws s1) as [|c2 s2]; [done|].
      destruct (c2 =? chr "]")%N; [done|].
      pose proof (IHa depth (c2 :: s2) ltac:(simpl in *; lia)).
      by destruct (parse_array fuel depth (c2 :: s2)) as [[vs rest]|[]]. }
    destruct (scan_constant (c :: s1)) as [[v' r']|]; [done|].
    destruct (match_number (c :: s1)) as [[res rest]|] eqn:Hn; [|done].
    apply match_number_length in Hn as [_ Hn].
    destruct res as [v|e]; [done|]. by rewrite (Hn e eq_refl).
  - intros depth s Hfuel. cbn [parse_array].
    pose proof (IHv depth s ltac:(lia)) as Hv.
    destruct (scan_once fuel depth s) as [[v s1]|e] eqn:Hs;
      cbn [mbind result_bind]; [|congruence].
    apply Cv in Hs. pose proof (skip_ws_length s1).
    destruct (skip_ws s1) as [|c s2]; [done|].
    destruct (c =? chr "]")%N; [done|].
    destruct (c =? chr ",")%N; [|done].
    pose proof (skip_ws_length s2).
    pose proof (IHa depth (skip_ws s2) ltac:(simpl in *; lia)).
    by destruct (parse_array fuel depth (skip_ws s2)) as [[values rest]|[]].
  - intros depth [|c s1] Hfuel; cbn [parse_object]; [done|]. simpl in Hfuel.
    destruct (c =? QUOTE)%N; [|done].
    destruct (scanstring s1) as [[key s2]|e] eqn:Hkey;
      cbn [mbind result_bind].
    2: { by apply scanstring_raises in Hkey as ->. }
    apply scanstring_length in Hkey. pose proof (skip_ws_length s2).
    destruct (skip_ws s2) as [|c2 s3]; [done|].
    destruct (c2 =? chr ":")%N; [|done].
    pose proof (skip_ws_length s3).
    pose proof (IHv depth (skip_ws s3) ltac:(simpl in *; lia)) as Hv.
    destruct (scan_once fuel depth (skip_ws s3)) as [[v s4]|e] eqn:Hs;
      cbn [mbind result_bind]; [|congruence].
    apply Cv in Hs. pose proof (skip_ws_length s4).
    destruct (skip_ws s4) as [|c3 s5]; [done|].
    destruct (c3 =? chr "}")%N; [done|].
    destruct (c3 =? chr ",")%N; [|done].
    pose proof (skip_ws_length s5).
    pose proof (IHo depth (skip_ws s5) ltac:(simpl in *; lia)).
    by destruct (parse_object fuel depth (skip_ws s5)) as [[pairs rest]|[]].
Qed.

Section DecoderExceptions.
Context `{Interpreter}.

(** The bound of [json_loads] is never reached, and the decoder raises
    nothing but its own three exceptions. *)
Lemma json_loads_raises (s : pystr) (e : pyexc) :
  json_loads s = Raise e ->
  e = JSONDecodeError \/ e = ValueError \/ e = RecursionError.
Proof.
  unfold json_loads. destruct (startswith s _); [intros [= <-]; by left|].
  pose proof (skip_ws_length s).
  pose proof (proj1 (scan_once_fuel (2 * length s + 1))
                (S recursion_margin) (skip_ws s) ltac:(lia)) as Hfuel.
  destruct (scan_once _ _ _) as [[v rest]|e'] eqn:Hv; cbn [mbind result_bind].
  - destruct (skip_ws rest); [done|]. intros [= <-]. by left.
  - intros [= <-].
    apply scan_once_raises in Hv as [-> | [-> | [-> | ->]]]; auto. done.
Qed.

Lemma parse_response_raises (content : pystr) (e : pyexc) :
  parse_response content = Raise e ->
  e = JSONDecodeError \/ e = ValueError \/ e = RecursionError.
Proof.
  unfold parse_response.
  destruct (strip_code_block_Ok content) as [text ->].
  apply json_loads_raises.
Qed.

End DecoderExceptions.
(** ** The response of the remote service *)

(** C6. The fenced response of the specification parses to the two items,
    and prose is refused by the JSON decoder; more generally, whenever the
    decoder refuses the stripped text, so does the extractor. *)
Theorem parse_response_fenced_and_prose `{Interpreter} :
  parse_response
    (py "```json" ++ [LF]
     ++ py "[" ++ quoted "Ski" ++ py "," ++ quoted "Read" ++ py "]" ++ [LF]
     ++ py "```")
  = Ok (PList [PStr (py "Ski"); PStr (py "Read")])
  /\ parse_response (py "Here are your goals: Ski, Read")
     = Raise JSONDecodeError
  /\ forall content text e,
       strip_code_block content = Ok text -> json_loads text = Raise e ->
       parse_response content = Raise e.
Proof.
  split; [by vm_compute|]. split; [by vm_compute|].
  intros content text e Htext He. unfold parse_response.
  by rewrite Htext.
Qed.

(** C7, as stated: a response that is valid JSON but no array of strings
    is returned as it is. *)
Lemma parse_response_not_strings :
  (forall I : Interpreter,
     @parse_response I (py "[1, 2]") = Ok (PList [PInt 1; PInt 2]))
  /\ (forall I : Interpreter,
        @parse_response I
          (py "```json" ++ [LF] ++ py "42" ++ [LF] ++ py "```")
        = Ok (PInt 42))
  /\ ~ (forall (I : Interpreter) content v,
          @parse_response I content = Ok v ->
          exists ss : list pystr, v = PList (PStr <$> ss)).
Proof.
  split; [by vm_compute|]. split; [by vm_compute|].
  intros Hall.
  destruct (Hall interpreter_1000 (py "42") (PInt 42)) as [ss Hss];
    [by vm_compute|].
  discriminate Hss.
Qed.

Lemma scan_once_too_deep (depth : nat) :
  forall fuel tail,
    2 * depth < fuel ->
    scan_once fuel depth (replicate (S depth) (chr "[") ++ tail)
    = Raise RecursionError.
Proof.
  induction depth as [|depth IH]; intros fuel tail Hfuel.
  - destruct fuel as [|fuel]; [lia|]. reflexivity.
  - destruct fuel as [|[|fuel]]; [lia..|].
    change (replicate (S (S depth)) (chr "[") ++ tail)
      with (chr "[" :: [] ++ chr "[" :: (replicate depth (chr "[") ++ tail)).
    rewrite scan_once_array by (done || constructor).
    change (chr "[" =? chr "]")%N with false. cbv iota.
    cbn [parse_array].
    change (chr "[" :: replicate depth (chr "[") ++ tail)
      with (replicate (S depth) (chr "[") ++ tail).
    rewrite IH by lia. reflexivity.
Qed.

Section Response.
Context `{Interpreter}.

Lemma parse_response_array_text (text : pystr) (ss : list pystr) :
  array_text text ss -> parse_response text = Ok (PList (PStr <$> ss)).
Proof.
  intros Htext. unfold parse_response, strip_code_block.
  rewrite (proj1 (strip_array_text _ _ Htext)).
  destruct (array_text_ends _ _ Htext) as [t Ht].
  replace (startswith text FENCE) with false by (by rewrite Ht).
  by apply json_loads_array_text.
Qed.

Lemma parse_response_fenced_array_text (text : pystr) (ss : list pystr) :
  array_text text ss -> chr "`" ∉ text ->
  parse_response (fenced text) = Ok (PList (PStr <$> ss)).
Proof.
  intros Htext Htick. unfold parse_response, fenced.
  replace (py "```json" ++ [LF] ++ text ++ [LF] ++ py "```")
    with (FENCE ++ (py "json" ++ [LF] ++ text ++ [LF]) ++ FENCE ++ [])
    by list_assoc.
  rewrite strip_code_block_fence.
  - rewrite startswith_app. cbn [mbind result_bind].
    change (drop 4 (py "json" ++ ?x)) with x.
    rewrite (proj2 (strip_array_text _ _ Htext)).
    by apply json_loads_array_text.
  - rewrite !not_elem_of_app. split; [not_in_literal|].
    split; [not_in_literal|]. split; [done|not_in_literal].
Qed.

Lemma parse_response_too_deep :
  parse_response (replicate (recursion_margin + 2) (chr "["))
  = Raise RecursionError.
Proof.
  replace (recursion_margin + 2) with (S (S recursion_margin)) by lia.
  set (s := replicate (S (S recursion_margin)) (chr "[")).
  assert (Hs : strip s = s).
  { unfold strip, s. cbn [replicate]. rewrite lstrip_head by done.
    rewrite replicate_cons_app, app_comm_cons. by apply rstrip_last. }
  unfold parse_response, strip_code_block. rewrite Hs.
  replace (startswith s FENCE) with false by reflexivity.
  cbn [mbind result_bind]. unfold json_loads.
  replace (startswith s [65279%N]) with false by reflexivity.
  replace (skip_ws s) with s by reflexivity.
  pose proof (scan_once_too_deep (S recursion_margin)
                (2 * length s + 1) []) as Hdeep.
  rewrite app_nil_r in Hdeep. fold s in Hdeep. rewrite Hdeep; [done|].
  unfold s. rewrite length_replicate. lia.
Qed.

(** C7, as the code has it.  The extractor strips an optional code fence
    (the indexing of line 34 never fails) and hands the rest to the JSON
    decoder: it either fails with one of the decoder's three exceptions
    or returns the value the decoder read.  That value is the list of
    strings whenever the response is a JSON text of an array of strings,
    with any whitespace between its parts and any way of escaping the
    characters, bare or inside a json code fence (for a text without
    backtick); the text a serializer writes for a list of strings is
    one.  Nothing checks that the value is such a list, and nesting
    deeper than the interpreter allows raises [RecursionError]. *)
Theorem parse_response_returns_json_value :
  (forall content, exists text,
     strip_code_block content = Ok text
     /\ parse_response content = json_loads text
     /\ ((exists v, parse_response content = Ok v)
         \/ parse_response content = Raise JSONDecodeError
         \/ parse_response content = Raise ValueError
         \/ parse_response content = Raise RecursionError))
  /\ (forall (text : pystr) (ss : list pystr),
        array_text text ss ->
        parse_response text = Ok (PList (PStr <$> ss))
        /\ (chr "`" ∉ text ->
            parse_response (fenced text) = Ok (PList (PStr <$> ss))))
  /\ (forall ss : list pystr, array_text (json_array ss) ss)
  /\ parse_response (replicate (recursion_margin + 2) (chr "["))
     = Raise RecursionError.
Proof.
  split; [|split; [|split]].
  - intros content. destruct (strip_code_block_Ok content) as [text Htext].
    exists text. split; [done|].
    split; [unfold parse_response; by rewrite Htext|].
    destruct (parse_response content) as [v|e] eqn:Hp; [left; by exists v|].
    right.
    destruct (parse_response_raises _ _ Hp) as [-> | [-> | ->]]; auto.
  - intros text ss Htext. split.
    + by apply parse_response_array_text.
    + by apply parse_response_fenced_array_text.
  - apply array_text_json_array.
  - apply parse_response_too_deep.
Qed.

End Response.

Lemma parse_response_returns_json_value_witness :
  @parse_response interpreter_1000
    (py "[" ++ quoted "Ski" ++ py "," ++ quoted "Read" ++ py "]")
  = Ok (PList [PStr (py "Ski"); PStr (py "Read")])
  /\ @parse_response interpreter_1000
       (fenced (py "[ " ++ quoted "Ski" ++ [LF] ++ py ", " ++ quoted "Read"
                ++ py " ]"))
     = Ok (PList [PStr (py "Ski"); PStr (py "Read")]).
Proof.
  assert (Hski : string_body (py "Ski") (py "Ski"))
    by (repeat (apply body_raw; [done|done|done|]); apply body_end).
  assert (Hread : string_body (py "Read") (py "Read"))
    by (repeat (apply body_raw; [done|done|done|]); apply body_end).
  assert (Hbare : array_text
                    (py "[" ++ quoted "Ski" ++ py "," ++ quoted "Read"
                     ++ py "]")
                    [py "Ski"; py "Read"]).
  { apply (array_nonempty [] _ _); [by constructor|].
    apply (elements_more (py "Ski") (py "Ski") [] [] _ [py "Read"]);
      [done|by constructor|by constructor|].
    apply (elements_last (py "Read") (py "Read") []);
      [done|by constructor]. }
  assert (Hspaced : array_text
                      (py "[ " ++ quoted "Ski" ++ [LF] ++ py ", "
                       ++ quoted "Read" ++ py " ]")
                      [py "Ski"; py "Read"]).
  { apply (array_nonempty [chr " "] _ _); [by repeat constructor|].
    apply (elements_more (py "Ski") (py "Ski") [LF] [chr " "] _
             [py "Read"]);
      [done|by repeat constructor|by repeat constructor|].
    apply (elements_last (py "Read") (py "Read") [chr " "]);
      [done|by repeat constructor]. }
  split.
  - exact (proj1 (proj1 (proj2 (@parse_response_returns_json_value
                                  interpreter_1000))
                    _ _ Hbare)).
  - apply (proj2 (proj1 (proj2 (@parse_response_returns_json_value
                                  interpreter_1000))
                    _ _ Hspaced)).
    not_in_literal.
Defined.

(** ** The driver *)

Section Driver.
Context `{Textwrap, Matplotlib, Interpreter, OpenRouter}.

Lemma on_generate_blank environ_key user_input title g :
  strip user_input = [] ->
  on_generate environ_key user_input title g
  = [StError (py "Please enter some items first!")].
Proof. intros Hs. unfold on_generate. by rewrite Hs. Qed.

(** C9. Empty or whitespace-only text yields the user-input error and
    nothing else; without the credential no request is sent, and text that
    is not blank yields the configuration error and nothing else. *)
Theorem blank_input_or_missing_key (user_input title : pystr) (g : rng) :
  (forall environ_key,
     Forall (fun c => isspace c = true) user_input ->
     on_generate environ_key user_input title g
     = [StError (py "Please enter some items first!")])
  /\ (forall text, ChatRequest text ∉ on_generate None user_input title g)
  /\ (strip user_input <> [] ->
      on_generate None user_input title g
      = [StError (py "Please set OPENROUTER_API_KEY environment variable")]).
Proof.
  split; [|split].
  - intros environ_key Hs. by apply on_generate_blank, strip_spaces.
  - intros text. unfold on_generate.
    destruct (negb _); simpl; intros Hin;
      inversion Hin as [|? ? ? Hin']; inversion Hin'.
  - intros Hs. unfold on_generate.
    destruct (strip user_input); [done|]. reflexivity.
Qed.

(** C10. When the extraction returns the empty list, the driver reports
    zero items and stops: no card is generated or shown and no error is
    reported, exactly as it shows nothing more after a failed extraction. *)
Theorem empty_list_skips_rendering
    (key user_input title content : pystr) (g : rng) :
  strip user_input <> [] -> key <> [] ->
  OpenAI (Some key) = Ok () ->
  chat_completions_create user_input = Ok content ->
  parse_response content = Ok (PList []) ->
  on_generate (Some key) user_input title g
  = [StSpinner (py "Parsing your items..."); ChatRequest user_input;
     StSuccessFound 0; StExpander (py "View parsed items")]
  /\ show_card (PList []) title g = show_card PNone title g
  /\ show_card (PList []) title g = [].
Proof.
  intros Hs Hk Hclient Hreply Hparse. split; [|done].
  unfold on_generate, try_parse, parse_items_with_llm.
  destruct (strip user_input); [done|].
  destruct key; [done|]. simpl.
  rewrite Hclient, Hreply. simpl. by rewrite Hparse.
Qed.

End Driver.


Lemma empty_list_skips_rendering_witness :
  @on_generate sample_wrap layout_accepting interpreter_1000 sample_remote
    (Some (py "sk-or-v1")) (py "nothing yet") (py "2025 GOALS") []
  = [StSpinner (py "Parsing your items..."); ChatRequest (py "nothing yet");
     StSuccessFound 0; StExpander (py "View parsed items")]
  /\ @show_card sample_wrap layout_accepting (PList []) (py "2025 GOALS") []
     = @show_card sample_wrap layout_accepting PNone (py "2025 GOALS") []
  /\ @show_card sample_wrap layout_accepting (PList []) (py "2025 GOALS") []
     = [].
Proof.
  apply (@empty_list_skips_rendering sample_wrap layout_accepting
           interpreter_1000 sample_remote
           (py "sk-or-v1") (py "nothing yet") (py "2025 GOALS") (py "[]") []);
    first [ reflexivity | vm_compute; discriminate ].
Defined.

(* ===================================================================== *)
(** * Further properties *)
(* ===================================================================== *)

(** ** Which lists can be rendered *)

Section Renderable.
Context `{Textwrap, Matplotlib}.

(** X1. A list gets as far as the layout exactly when each of its first
    24 items is a string: then the result is the figure of the 25 slots if
    [plt.tight_layout] accepts it, and the exception of the layout
    otherwise.  With another value among the first 24 items,
    [textwrap.wrap] raises [AttributeError], whatever the shuffle. *)
Theorem generate_bingo_card_renders_strings
    (items : list pyval) (title : pystr) (g : rng) :
  (Forall (fun v => is_str v = true) (take 24 items) ->
   generate_bingo_card (PList items) title g
   = (_ ← tight_layout (figure_of (all_slots_with_free items g) title);
      Ok (figure_of (all_slots_with_free items g) title)))
  /\ (~ Forall (fun v => is_str v = true) (take 24 items) ->
      generate_bingo_card (PList items) title g = Raise AttributeError).
Proof.
  pose proof (length_all_slots_with_free items g) as Hlen.
  pose proof (all_slots_with_free_is_str items g) as Hstr.
  split; intros Hitems; simpl.
  - apply render_str; [done|]. by apply Hstr.
  - apply render_Raise; [done|]. by rewrite Hstr.
Qed.

End Renderable.

Lemma generate_bingo_card_renders_strings_witness :
  @generate_bingo_card sample_wrap layout_accepting
    (PList [PStr (py "Ski"); PStr (py "Read")]) (py "2025 GOALS") [3; 1; 4]
  = Ok sample_figure
  /\ @generate_bingo_card sample_wrap (layout_refusing ValueError)
       (PList [PStr (py "Make $$"); PStr (py "Read")]) (py "2025 GOALS")
       [3; 1; 4]
     = Raise ValueError
  /\ @generate_bingo_card sample_wrap layout_accepting
       (PList [PStr (py "Ski"); PInt 10]) (py "2025 GOALS") [3; 1; 4]
     = Raise AttributeError.
Proof.
  split; [|split].
  - rewrite (proj1 (@generate_bingo_card_renders_strings sample_wrap
                      layout_accepting
                      [PStr (py "Ski"); PStr (py "Read")] (py "2025 GOALS")
                      [3; 1; 4]));
      [reflexivity|by repeat constructor].
  - rewrite (proj1 (@generate_bingo_card_renders_strings sample_wrap
                      (layout_refusing ValueError)
                      [PStr (py "Make $$"); PStr (py "Read")]
                      (py "2025 GOALS") [3; 1; 4]));
      [reflexivity|by repeat constructor].
  - apply (proj2 (@generate_bingo_card_renders_strings sample_wrap
                    layout_accepting
                    [PStr (py "Ski"); PInt 10] (py "2025 GOALS")
                    [3; 1; 4])).
    intros Hall. inversion Hall as [|? ? _ Hrest]. by inversion Hrest.
Defined.

(** ** What the card depends on *)

Lemma all_slots_idemp (items : list pyval) :
  all_slots (all_slots items) = all_slots items.
Proof.
  unfold all_slots at 1. rewrite length_all_slots. simpl.
  apply take_ge. by rewrite length_all_slots.
Qed.

Lemma all_slots_app_ge (items extra : list pyval) :
  24 <= length items -> all_slots (items ++ extra) = all_slots items.
Proof.
  intros Hlen. unfold all_slots. rewrite length_app.
  destruct (Nat.ltb_spec (length items + length extra) 24); [lia|].
  destruct (Nat.ltb_spec (length items) 24); [lia|].
  by rewrite take_app_le.
Qed.

Lemma all_slots_app_blank (items : list pyval) (n : nat) :
  length items + n <= 24 ->
  all_slots (items ++ replicate n (PStr [])) = all_slots items.
Proof.
  intros Hlen. unfold all_slots. rewrite length_app, length_replicate.
  destruct (Nat.ltb_spec (length items + n) 24);
    destruct (Nat.ltb_spec (length items) 24); try lia.
  - rewrite <- app_assoc, <- replicate_add. do 2 f_equal. lia.
  - rewrite take_ge by (rewrite length_app, length_replicate; lia).
    do 2 f_equal. lia.
  - replace n with 0 by lia. simpl. by rewrite app_nil_r.
Qed.

Section SlotsOnly.
Context `{Textwrap, Matplotlib}.

Lemma generate_bingo_card_slots (items items' : list pyval) title g :
  all_slots items = all_slots items' ->
  generate_bingo_card (PList items) title g
  = generate_bingo_card (PList items') title g.
Proof.
  intros Heq. simpl. unfold all_slots_with_free, all_slots_shuffled.
  by rewrite Heq.
Qed.

(** X2. The card depends on the items only through the 24 slots: items
    after the 24th are ignored, and empty strings at the end of a short
    list are the same as no items. *)
Theorem generate_bingo_card_ignores_surplus
    (items extra : list pyval) (n : nat) (title : pystr) (g : rng) :
  generate_bingo_card (PList (all_slots items)) title g
  = generate_bingo_card (PList items) title g
  /\ (24 <= length items ->
      generate_bingo_card (PList (items ++ extra)) title g
      = generate_bingo_card (PList items) title g)
  /\ (length items + n <= 24 ->
      generate_bingo_card (PList (items ++ replicate n (PStr []))) title g
      = generate_bingo_card (PList items) title g).
Proof.
  split; [|split]; intros; apply generate_bingo_card_slots.
  - apply all_slots_idemp.
  - by apply all_slots_app_ge.
  - by apply all_slots_app_blank.
Qed.

Lemma grid_idx_Permutation : (fun p => idx p.1 p.2) <$> grid ≡ₚ seq 0 25.
Proof. apply (bool_decide_unpack _). by vm_compute. Qed.

Lemma lookup_seq_fmap {A} (d : A) (l : list A) :
  (fun k => default d (l !! k)) <$> seq 0 (length l) = l.
Proof.
  apply list_eq. intros k. rewrite list_lookup_fmap.
  destruct (decide (k < length l)) as [Hk|Hk].
  - rewrite lookup_seq_lt by done. simpl.
    destruct (lookup_lt_is_Some_2 l k Hk) as [v ->]. done.
  - rewrite lookup_seq_ge by lia. simpl. symmetry.
    apply lookup_ge_None. lia.
Qed.

(** X3. On a card that is rendered the 25 squares stand at the 25 grid
    positions, one each, and their texts are the wrapped free-space label
    and the 24 wrapped slots in some arrangement: every slot is drawn
    exactly once.  The title is the one passed in, and the headers B, I, N,
    G, O stand above columns 0 to 4. *)
Theorem every_slot_drawn_once
    (items : list pyval) (title : pystr) (g : rng) (fig : Figure) :
  generate_bingo_card (PList items) title g = Ok fig ->
  (fun c => (cell_i c, cell_j c)) <$> fig_cells fig = grid
  /\ NoDup grid
  /\ cell_text <$> fig_cells fig
     ≡ₚ shown <$> (PStr FREE_LABEL :: all_slots items)
  /\ fig_title fig = title
  /\ fig_headers fig
     = [(0, py "B"); (1, py "I"); (2, py "N"); (3, py "G"); (4, py "O")].
Proof.
  intros (l & [= <-] & _ & -> & _)%generate_bingo_card_Ok_inv.
  pose proof (length_all_slots_with_free items g) as Hlen.
  cbn [figure_of fig_cells fig_title fig_headers].
  split; [reflexivity|].
  split; [apply (bool_decide_unpack _); by vm_compute|].
  split; [|done].
  set (slots := all_slots_with_free items g) in *.
  transitivity
    (shown <$> ((fun k => default PNone (slots !! k)) <$> seq 0 25)).
  - rewrite <- grid_idx_Permutation, <- !list_fmap_compose. reflexivity.
  - rewrite <- Hlen, lookup_seq_fmap. unfold slots, all_slots_with_free.
    by rewrite list_insert_Permutation, all_slots_shuffled_Permutation.
Qed.

End SlotsOnly.

Lemma every_slot_drawn_once_witness :
  (fun c => (cell_i c, cell_j c)) <$> fig_cells sample_figure = grid
  /\ NoDup grid
  /\ cell_text <$> fig_cells sample_figure
     ≡ₚ @shown sample_wrap
          <$> (PStr FREE_LABEL
               :: all_slots [PStr (py "Ski"); PStr (py "Read")])
  /\ fig_title sample_figure = py "2025 GOALS"
  /\ fig_headers sample_figure
     = [(0, py "B"); (1, py "I"); (2, py "N"); (3, py "G"); (4, py "O")].
Proof.
  apply (@every_slot_drawn_once sample_wrap layout_accepting
           [PStr (py "Ski"); PStr (py "Read")] (py "2025 GOALS") [3; 1; 4]
           sample_figure).
  reflexivity.
Defined.

(** X4. The number of empty squares on a card is the number of missing
    items plus the number of empty strings among the first 24 items. *)
Theorem empty_squares_count (items : list pyval) (g : rng) :
  length (filter (fun v => is_empty_str v = true) (all_slots_with_free items g))
  = (24 - length items)
    + length (filter (fun v => is_empty_str v = true) (take 24 items)).
Proof.
  unfold all_slots_with_free.
  rewrite list_insert_Permutation, filter_cons_False by done.
  rewrite all_slots_shuffled_Permutation. unfold all_slots.
  destruct (Nat.ltb_spec (length items) 24) as [Hlt|Hge].
  - rewrite filter_app, length_app, take_ge by lia.
    assert (Hrep : forall n,
              filter (fun v => is_empty_str v = true) (replicate n (PStr []))
              = replicate n (PStr [])).
    { induction n as [|n IH]; [done|]. simpl.
      by rewrite filter_cons_True, IH. }
    rewrite Hrep, length_replicate. lia.
  - replace (24 - length items) with 0 by lia. done.
Qed.

Section Reading.
Context `{Textwrap, Matplotlib}.

(** X14. Read row by row from the top, each row from left to right, the
    squares of a card that is rendered show the 25 slots in the order of
    their indices: the first row holds slots 0 to 4, the centre of the
    third row slot 12, the last row slots 20 to 24. *)
Theorem card_reads_in_slot_order
    (items : list pyval) (title : pystr) (g : rng) (fig : Figure) :
  generate_bingo_card (PList items) title g = Ok fig ->
  exists cells,
    cells ≡ₚ fig_cells fig
    /\ (fun c => (cell_i c, cell_j c)) <$> cells = reading_order
    /\ cell_text <$> cells = shown <$> all_slots_with_free items g.
Proof.
  intros (l & [= <-] & _ & -> & _)%generate_bingo_card_Ok_inv.
  set (slots := all_slots_with_free items g) in *.
  exists (cell_of slots <$> reading_order).
  cbn [figure_of fig_cells]. split; [|split].
  - apply fmap_Permutation. apply (bool_decide_unpack _). by vm_compute.
  - reflexivity.
  - transitivity
      (shown <$> ((fun k => default PNone (slots !! k)) <$> seq 0 25)).
    + reflexivity.
    + f_equal. rewrite <- (length_all_slots_with_free items g).
      apply lookup_seq_fmap.
Qed.

End Reading.

Lemma card_reads_in_slot_order_witness :
  exists cells,
    cells ≡ₚ fig_cells sample_figure
    /\ (fun c => (cell_i c, cell_j c)) <$> cells = reading_order
    /\ cell_text <$> cells
       = @shown sample_wrap
           <$> all_slots_with_free [PStr (py "Ski"); PStr (py "Read")]
                 [3; 1; 4].
Proof.
  apply (@card_reads_in_slot_order sample_wrap layout_accepting
           [PStr (py "Ski"); PStr (py "Read")] (py "2025 GOALS") [3; 1; 4]
           sample_figure).
  reflexivity.
Defined.

(** ** Whitespace and fences around the response *)

Section Fences.
Context `{Interpreter}.

(** X5. Whitespace before and after the response text does not change the
    result of the extraction. *)
Theorem parse_response_ignores_outer_whitespace (w1 content w2 : pystr) :
  Forall (fun c => isspace c = true) w1 ->
  Forall (fun c => isspace c = true) w2 ->
  parse_response (w1 ++ content ++ w2) = parse_response content.
Proof.
  intros Hw1 Hw2. unfold parse_response, strip_code_block.
  by rewrite strip_spaces_around.
Qed.

(** X6. When the response opens with a code fence, the text up to the
    next fence is what gets decoded, with a leading json tag removed; the
    text after the closing fence is ignored. *)
Theorem parse_response_closed_fence (body rest : pystr) :
  chr "`" ∉ body ->
  parse_response (py "```json" ++ body ++ py "```" ++ rest)
  = json_loads (strip body)
  /\ (startswith body (py "json") = false ->
      parse_response (py "```" ++ body ++ py "```" ++ rest)
      = json_loads (strip body)).
Proof.
  intros Hbody. split.
  - unfold parse_response.
    change (py "```json" ++ body ++ py "```" ++ rest)
      with (FENCE ++ (py "json" ++ body) ++ FENCE ++ rest).
    rewrite strip_code_block_fence.
    + by rewrite startswith_app.
    + apply not_elem_of_app. split; [not_in_literal|done].
  - intros Htag. unfold parse_response.
    change (py "```" ++ body ++ py "```" ++ rest)
      with (FENCE ++ ([] ++ body) ++ FENCE ++ rest).
    rewrite strip_code_block_fence by done. simpl. by rewrite Htag.
Qed.

(** X7. A fence that is never closed is handled like a closed one: the
    text after the opening fence and its json tag is decoded. *)
Theorem parse_response_open_fence (body : pystr) :
  chr "`" ∉ body ->
  parse_response (py "```json" ++ body) = json_loads (strip body).
Proof.
  intros Hbody. unfold parse_response, strip_code_block.
  change (py "```json" ++ body) with (FENCE ++ py "json" ++ body).
  rewrite strip_fence_head, startswith_app.
  change (py "json" ++ body) with (py "jso" ++ chr "n" :: body).
  rewrite rstrip_app_nonspace by done.
  change (py "jso" ++ chr "n" :: rstrip body) with (py "json" ++ rstrip body).
  unfold split. rewrite split_go_fence_head, split_go_no_fence.
  - change (getitem _ 1) with (Ok (py "json" ++ rstrip body)).
    cbn [mbind result_bind]. rewrite startswith_app.
    change (drop 4 (py "json" ++ ?x)) with x.
    by rewrite strip_rstrip.
  - apply not_elem_of_app. split; [not_in_literal|].
    destruct (rstrip_decomp body) as (w & _ & Hw).
    intros Hin. apply Hbody. rewrite Hw. apply elem_of_app. by left.
Qed.

End Fences.

Lemma parse_response_ignores_outer_whitespace_witness :
  @parse_response interpreter_1000
    ([LF; chr " "] ++ (py "[" ++ quoted "Ski" ++ py "]") ++ [chr " "; LF; LF])
  = @parse_response interpreter_1000 (py "[" ++ quoted "Ski" ++ py "]").
Proof.
  apply (@parse_response_ignores_outer_whitespace interpreter_1000
           [LF; chr " "] (py "[" ++ quoted "Ski" ++ py "]") [chr " "; LF; LF]);
    repeat constructor.
Defined.

Lemma parse_response_closed_fence_witness :
  @parse_response interpreter_1000
    (py "```json" ++ ([LF] ++ py "[" ++ quoted "Ski" ++ py "]" ++ [LF])
     ++ py "```" ++ [LF] ++ py "Hope this helps!")
  = @json_loads interpreter_1000
      (strip ([LF] ++ py "[" ++ quoted "Ski" ++ py "]" ++ [LF]))
  /\ (startswith ([LF] ++ py "[" ++ quoted "Ski" ++ py "]" ++ [LF]) (py "json")
      = false ->
      @parse_response interpreter_1000
        (py "```" ++ ([LF] ++ py "[" ++ quoted "Ski" ++ py "]" ++ [LF])
         ++ py "```" ++ [LF] ++ py "Hope this helps!")
      = @json_loads interpreter_1000
          (strip ([LF] ++ py "[" ++ quoted "Ski" ++ py "]" ++ [LF]))).
Proof.
  apply (@parse_response_closed_fence interpreter_1000
           ([LF] ++ py "[" ++ quoted "Ski" ++ py "]" ++ [LF])
           ([LF] ++ py "Hope this helps!")).
  not_in_literal.
Defined.

Lemma parse_response_open_fence_witness :
  @parse_response interpreter_1000
    (py "```json" ++ ([LF] ++ py "[" ++ quoted "Ski" ++ py "]"))
  = @json_loads interpreter_1000
      (strip ([LF] ++ py "[" ++ quoted "Ski" ++ py "]")).
Proof.
  apply (@parse_response_open_fence interpreter_1000
           ([LF] ++ py "[" ++ quoted "Ski" ++ py "]")).
  not_in_literal.
Defined.

(** ** The runs of the driver *)

Section Runs.
Context `{Textwrap, Matplotlib, Interpreter, OpenRouter}.
Implicit Types (key : option pystr) (user_input title : pystr) (g : rng).

Lemma on_generate_ready (k : pystr) user_input title g :
  strip user_input <> [] -> k <> [] ->
  on_generate (Some k) user_input title g
  = StSpinner (py "Parsing your items...")
      :: (try_parse (Some k) user_input).1
      ++ show_card (try_parse (Some k) user_input).2 title g.
Proof.
  intros Hs Hk. unfold on_generate.
  destruct (strip user_input); [done|]. destruct k; [done|]. simpl.
  by destruct (try_parse _ _).
Qed.

Lemma on_generate_not_ready key user_input title g :
  strip user_input = [] \/ key = None \/ key = Some [] ->
  exists msg, on_generate key user_input title g = [StError msg].
Proof.
  unfold on_generate. intros Hcase.
  destruct (strip user_input) as [|c s]; [by eexists|].
  destruct Hcase as [?|[->| ->]]; [done|by eexists..].
Qed.

(** The events of the [try] statement: at most the request, then either
    the report of an exception, which leaves [None] in [items], or the
    success message and the list of the items. *)
Lemma try_parse_cases key user_input :
  exists req,
    (req = [] /\ (exists e, OpenAI key = Raise e)
     \/ req = [ChatRequest user_input] /\ (exists u, OpenAI key = Ok u))
    /\ ((exists e,
           try_parse key user_input = (req ++ [StErrorParsing e], PNone))
        \/ (exists items n elems,
              py_len items = Ok n /\ py_iter items = Ok elems
              /\ try_parse key user_input
                 = (req ++ [StSuccessFound n;
                            StExpander (py "View parsed items")]
                        ++ imap (fun i item => StWrite (S i) item) elems,
                    items))).
Proof.
  unfold try_parse, parse_items_with_llm.
  destruct (OpenAI key) as [u|e] eqn:Hclient.
  2: { exists []. split; [left; split; [done|by exists e]|].
       left. by exists e. }
  exists [ChatRequest user_input].
  split; [right; split; [done|by exists u]|].
  destruct (mbind _ (chat_completions_create user_input))
    as [items|e]; [|left; by exists e].
  destruct (py_len items) as [n|e] eqn:Hlen; [|left; by exists e].
  destruct (py_iter items) as [elems|e] eqn:Hiter.
  - right. exists items, n, elems. by rewrite <- app_assoc.
  - left. exists e. by destruct items.
Qed.

Lemma filter_request_imap {A} (f : nat -> A -> event) (l : list A) :
  (forall i x, is_request (f i x) = false) ->
  filter (fun ev => is_request ev = true) (imap f l) = [].
Proof.
  revert f. induction l as [|x l IH]; intros f Hf; [done|]. simpl.
  rewrite filter_cons_False by (by rewrite Hf).
  apply IH. intros i y. apply Hf.
Qed.

Lemma filter_request_show_card items title g :
  filter (fun ev => is_request ev = true) (show_card items title g) = [].
Proof.
  unfold show_card. destruct (py_bool items); [|done].
  by destruct (generate_bingo_card items title g).
Qed.

Lemma filter_request_on_generate key user_input title g :
  filter (fun ev => is_request ev = true) (on_generate key user_input title g)
  = [] /\ (strip user_input = [] \/ key = None \/ key = Some []
           \/ exists e, OpenAI key = Raise e)
  \/ filter (fun ev => is_request ev = true)
       (on_generate key user_input title g)
     = [ChatRequest user_input]
     /\ strip user_input <> []
     /\ exists k u, key = Some k /\ k <> [] /\ OpenAI (Some k) = Ok u.
Proof.
  destruct (decide (strip user_input = [])) as [Hs|Hs].
  { left. destruct (on_generate_not_ready key user_input title g) as [msg ->];
      auto. }
  destruct key as [[|c k]|].
  1: left;
    destruct (on_generate_not_ready (Some []) user_input title g)
      as [msg ->]; auto.
  2: left;
    destruct (on_generate_not_ready None user_input title g)
      as [msg ->]; auto.
  rewrite on_generate_ready by done.
  rewrite filter_cons_False by done.
  rewrite filter_app, filter_request_show_card, app_nil_r.
  destruct (try_parse_cases (Some (c :: k)) user_input)
    as (req & Hreq & Hcases).
  assert (Hfilter : filter (fun ev => is_request ev = true)
                      (try_parse (Some (c :: k)) user_input).1
                    = req).
  { destruct Hcases as [[e ->]|(items & n & elems & _ & _ & ->)]; simpl.
    - rewrite filter_app, filter_cons_False, filter_nil, app_nil_r by done.
      by destruct Hreq as [[-> _]|[-> _]].
    - rewrite filter_app, !filter_cons_False by done.
      rewrite filter_request_imap, app_nil_r by done.
      by destruct Hreq as [[-> _]|[-> _]]. }
  rewrite Hfilter.
  destruct Hreq as [[-> He]|[-> [u Hu]]]; [left; auto|].
  right. split; [done|]. split; [done|]. by exists (c :: k), u.
Qed.

(** X8. A run sends at most one request, never a second one.  It sends
    one exactly when the text is not blank, the credential is set and not
    empty, and the client could be built; the request carries the text as
    the user typed it. *)
Theorem at_most_one_request key user_input title g :
  length (filter (fun ev => is_request ev = true)
            (on_generate key user_input title g)) <= 1
  /\ forall text,
       ChatRequest text ∈ on_generate key user_input title g
       <-> text = user_input
           /\ strip user_input <> []
           /\ exists k u, key = Some k /\ k <> [] /\ OpenAI (Some k) = Ok u.
Proof.
  assert (Hin : forall text,
            ChatRequest text ∈ on_generate key user_input title g
            <-> ChatRequest text
                ∈ filter (fun ev => is_request ev = true)
                    (on_generate key user_input title g)).
  { intros text. rewrite list_elem_of_filter.
    split; [by intros ?|by intros [_ ?]]. }
  destruct (filter_request_on_generate key user_input title g)
    as [[Hf Hwhy]|(Hf & Hs & k & u & -> & Hk & Hu)].
  - split; [rewrite Hf; simpl; lia|]. intros text. rewrite Hin, Hf. split.
    + intros Hx. inversion Hx.
    + intros (_ & Hs & k & u & -> & Hk & Hu).
      destruct Hwhy as [?|[?|[?|[e He]]]]; congruence.
  - split; [rewrite Hf; simpl; lia|]. intros text.
    rewrite Hin, Hf, list_elem_of_singleton. split.
    + intros [= ->]. eauto 10.
    + by intros [-> _].
Qed.

Lemma elem_of_writes (ev : event) (elems : list pyval) :
  ev ∈ imap (fun i item => StWrite (S i) item) elems ->
  exists i item, ev = StWrite i item.
Proof.
  intros (i & Hi)%list_elem_of_lookup. rewrite list_lookup_imap in Hi.
  destruct (elems !! i) as [item|]; simplify_eq/=. by eexists _, _.
Qed.

(** The shapes a run can have. *)
Lemma on_generate_shapes key user_input title g :
  (exists msg, on_generate key user_input title g = [StError msg])
  \/ (exists req e,
        (req = [] \/ req = [ChatRequest user_input])
        /\ on_generate key user_input title g
           = StSpinner (py "Parsing your items...")
               :: req ++ [StErrorParsing e])
  \/ (exists req n elems tail,
        (req = [] \/ req = [ChatRequest user_input])
        /\ (tail = []
            \/ (exists fig,
                  tail = [StSpinner (py "Generating bingo card...");
                          StPyplot fig; PltClose])
            \/ (exists e,
                  tail = [StSpinner (py "Generating bingo card...");
                          Uncaught e]))
        /\ on_generate key user_input title g
           = StSpinner (py "Parsing your items...")
               :: req ++ [StSuccessFound n;
                          StExpander (py "View parsed items")]
               ++ imap (fun i item => StWrite (S i) item) elems ++ tail).
Proof.
  destruct (decide (strip user_input = [])) as [Hs|Hs].
  { left. apply on_generate_not_ready. auto. }
  destruct key as [[|c k]|].
  1: left; apply on_generate_not_ready; auto.
  2: left; apply on_generate_not_ready; auto.
  rewrite on_generate_ready by done. right.
  destruct (try_parse_cases (Some (c :: k)) user_input)
    as (req & Hreq & Hcases).
  assert (Hreq' : req = [] \/ req = [ChatRequest user_input])
    by (destruct Hreq as [[-> _]|[-> _]]; auto).
  destruct Hcases as [[e ->]|(items & n & elems & _ & _ & ->)]; simpl.
  - left. exists req, e. split; [done|]. by rewrite app_nil_r.
  - right. exists req, n, elems, (show_card items title g).
    split; [done|]. split; [|by rewrite <- !app_assoc].
    unfold show_card. destruct (py_bool items); [|by left]. right.
    destruct (generate_bingo_card items title g) as [fig|e];
      [left; by exists fig|right; by exists e].
Qed.

(** X9. A card is shown only in a run without any error: when a figure is
    displayed, no error message and no uncaught exception occur in the
    run, and the figure is closed right after, as the last thing done.  An
    error message of the two presence checks is the only event of its
    run, and a reported exception is the last event of its run. *)
Theorem card_only_without_error key user_input title g :
  (forall fig,
     StPyplot fig ∈ on_generate key user_input title g ->
     (forall msg, StError msg ∉ on_generate key user_input title g)
     /\ (forall e, StErrorParsing e ∉ on_generate key user_input title g)
     /\ (forall e, Uncaught e ∉ on_generate key user_input title g)
     /\ exists pre,
          on_generate key user_input title g
          = pre ++ [StPyplot fig; PltClose])
  /\ (forall msg,
        StError msg ∈ on_generate key user_input title g ->
        on_generate key user_input title g = [StError msg])
  /\ (forall e,
        StErrorParsing e ∈ on_generate key user_input title g ->
        exists pre,
          on_generate key user_input title g = pre ++ [StErrorParsing e]).
Proof.
  destruct (on_generate_shapes key user_input title g)
    as [[msg ->]|[(req & e & Hreq & ->)
                 |(req & n & elems & tail & Hreq & Htail & ->)]].
  - split; [|split].
    + intros fig Hin. inversion Hin as [|? ? ? Hin']; inversion Hin'.
    + intros msg' Hin.
      inversion Hin as [|? ? ? Hin']; [done|inversion Hin'].
    + intros e Hin. inversion Hin as [|? ? ? Hin']; inversion Hin'.
  - assert (Hnot : forall ev,
              ev ∈ StSpinner (py "Parsing your items...")
                     :: req ++ [StErrorParsing e] ->
              ev = StSpinner (py "Parsing your items...")
              \/ ev = ChatRequest user_input \/ ev = StErrorParsing e).
    { intros ev. rewrite elem_of_cons, elem_of_app, list_elem_of_singleton.
      destruct Hreq as [-> | ->];
        rewrite ?elem_of_nil, ?list_elem_of_singleton; tauto. }
    split; [|split].
    + intros fig Hin. by destruct (Hnot _ Hin) as [?|[?|?]].
    + intros msg Hin. by destruct (Hnot _ Hin) as [?|[?|?]].
    + intros e' Hin. destruct (Hnot _ Hin) as [?|[?|[= ->]]]; [done..|].
      by exists (StSpinner (py "Parsing your items...") :: req).
  - assert (Hnot : forall ev,
              ev ∈ StSpinner (py "Parsing your items...")
                     :: req ++ [StSuccessFound n;
                                StExpander (py "View parsed items")]
                     ++ imap (fun i item => StWrite (S i) item) elems
                     ++ tail ->
              ev = StSpinner (py "Parsing your items...")
              \/ ev = ChatRequest user_input
              \/ ev = StSuccessFound n
              \/ ev = StExpander (py "View parsed items")
              \/ (exists i item, ev = StWrite i item)
              \/ ev ∈ tail).
    { intros ev. rewrite elem_of_cons, !elem_of_app, !elem_of_cons.
      intros [?|[Hin|[[?|[?|Hin]]|[Hin|?]]]]; auto 10.
      - destruct Hreq as [-> | ->]; [by inversion Hin|].
        apply list_elem_of_singleton in Hin. auto.
      - by inversion Hin.
      - apply elem_of_writes in Hin. auto 10. }
    split; [|split].
    + intros fig Hin.
      destruct (Hnot _ Hin) as [?|[?|[?|[?|[(?&?&?)|Hfig]]]]]; try done.
      destruct Htail as [->|[[fig' ->]|[e ->]]].
      * by inversion Hfig.
      * assert (fig' = fig) as ->.
        { repeat (inversion Hfig as [|? ? ? Hfig']; subst; try done;
                  clear Hfig; rename Hfig' into Hfig). }
        assert (Hclean : forall ev,
                  ev ∈ [StSpinner (py "Generating bingo card...");
                        StPyplot fig; PltClose] ->
                  ev = StSpinner (py "Generating bingo card...")
                  \/ ev = StPyplot fig \/ ev = PltClose).
        { intros ev. rewrite !elem_of_cons, elem_of_nil. tauto. }
        split; [|split; [|split]].
        -- intros msg Hmsg.
           destruct (Hnot _ Hmsg) as [?|[?|[?|[?|[(?&?&?)|Ht]]]]]; try done.
           by destruct (Hclean _ Ht) as [?|[?|?]].
        -- intros e Herr.
           destruct (Hnot _ Herr) as [?|[?|[?|[?|[(?&?&?)|Ht]]]]]; try done.
           by destruct (Hclean _ Ht) as [?|[?|?]].
        -- intros e Herr.
           destruct (Hnot _ Herr) as [?|[?|[?|[?|[(?&?&?)|Ht]]]]]; try done.
           by destruct (Hclean _ Ht) as [?|[?|?]].
        -- exists (StSpinner (py "Parsing your items...")
                     :: req ++ [StSuccessFound n;
                                StExpander (py "View parsed items")]
                     ++ imap (fun i item => StWrite (S i) item) elems
                     ++ [StSpinner (py "Generating bingo card...")]).
           change [StSpinner (py "Generating bingo card..."); StPyplot fig;
                   PltClose]
             with ([StSpinner (py "Generating bingo card...")]
                   ++ [StPyplot fig; PltClose]).
           rewrite !app_assoc. reflexivity.
      * repeat (inversion Hfig as [|? ? ? Hfig']; subst; try done;
                clear Hfig; rename Hfig' into Hfig).
    + intros msg Hin.
      destruct (Hnot _ Hin) as [?|[?|[?|[?|[(?&?&?)|Ht]]]]]; try done.
      destruct Htail as [->|[[fig' ->]|[e ->]]];
        repeat (inversion Ht as [|? ? ? Ht']; subst; try done;
                clear Ht; rename Ht' into Ht).
    + intros e Hin.
      destruct (Hnot _ Hin) as [?|[?|[?|[?|[(?&?&?)|Ht]]]]]; try done.
      destruct Htail as [->|[[fig' ->]|[e' ->]]];
        repeat (inversion Ht as [|? ? ? Ht']; subst; try done;
                clear Ht; rename Ht' into Ht).
Qed.

End Runs.

Section Traces.
Context `{Textwrap, Matplotlib, Interpreter, OpenRouter}.
Implicit Types (key user_input title content : pystr) (g : rng).

Lemma try_parse_reply key user_input content (u : unit) :
  OpenAI (Some key) = Ok u ->
  chat_completions_create user_input = Ok content ->
  try_parse (Some key) user_input
  = match parse_response content with
    | Raise e => ([ChatRequest user_input; StErrorParsing e], PNone)
    | Ok items =>
        match py_len items with
        | Raise e => ([ChatRequest user_input; StErrorParsing e], PNone)
        | Ok n =>
            match py_iter items with
            | Raise e =>
                ([ChatRequest user_input; StSuccessFound n;
                  StExpander (py "View parsed items"); StErrorParsing e],
                 PNone)
            | Ok elems =>
                (ChatRequest user_input :: StSuccessFound n
                   :: StExpander (py "View parsed items")
                   :: imap (fun i item => StWrite (S i) item) elems,
                 items)
            end
        end
    end.
Proof.
  intros Hclient Hreply. unfold try_parse, parse_items_with_llm.
  rewrite Hclient, Hreply. cbn [mbind result_bind].
  destruct (parse_response content) as [items|e]; [|done].
  destruct (py_len items) as [n|e]; [|done].
  by destruct (py_iter items).
Qed.

(** X10. An exception of the extraction is caught and reported, and the
    run ends there.  When building the client fails, no request is sent;
    when the request or the decoding of the response fails, the one
    request has been sent. *)
Theorem extraction_error_is_reported key user_input title g :
  strip user_input <> [] -> key <> [] ->
  (forall e,
     OpenAI (Some key) = Raise e ->
     on_generate (Some key) user_input title g
     = [StSpinner (py "Parsing your items..."); StErrorParsing e])
  /\ (forall u e,
        OpenAI (Some key) = Ok u ->
        chat_completions_create user_input ≫= parse_response = Raise e ->
        on_generate (Some key) user_input title g
        = [StSpinner (py "Parsing your items..."); ChatRequest user_input;
           StErrorParsing e]).
Proof.
  intros Hs Hk. rewrite on_generate_ready by done.
  unfold try_parse, parse_items_with_llm. split.
  - intros e ->. done.
  - intros u e -> Hr.
    destruct (chat_completions_create user_input) as [content|e'];
      cbn [mbind result_bind] in *; [by rewrite Hr|by injection Hr as ->].
Qed.

(** X11. A response that decodes to a number, a boolean or null is not
    rendered: taking its length raises [TypeError], which is reported like
    a failed extraction. *)
Theorem scalar_response_is_reported
    key user_input title content g (u : unit) (v : pyval) :
  strip user_input <> [] -> key <> [] ->
  OpenAI (Some key) = Ok u ->
  chat_completions_create user_input = Ok content ->
  parse_response content = Ok v ->
  (v = PNone \/ (exists b, v = PBool b) \/ (exists z, v = PInt z)
   \/ exists lit, v = PFloat lit) ->
  on_generate (Some key) user_input title g
  = [StSpinner (py "Parsing your items..."); ChatRequest user_input;
     StErrorParsing TypeError].
Proof.
  intros Hs Hk Hclient Hreply Hparse Hv.
  rewrite on_generate_ready, (try_parse_reply _ _ content u), Hparse by done.
  by destruct Hv as [->|[[b ->]|[[z ->]|[lit ->]]]].
Qed.

Lemma generate_bingo_card_Raise (items : list pyval) title g :
  ~ Forall (fun v => is_str v = true) (take 24 items) ->
  generate_bingo_card (PList items) title g = Raise AttributeError.
Proof.
  intros Hitems. apply render_Raise; [apply length_all_slots_with_free|].
  by rewrite all_slots_with_free_is_str.
Qed.

(** X12. When the response decodes to a non-empty list of strings, the
    run reports their number (all of them, also beyond 24), lists them
    numbered from 1 in their order, and goes on to render: if the layout
    accepts the figure of the 25 slots, that figure is shown and closed;
    if the layout raises, the exception is not caught and no card is
    shown. *)
Theorem list_of_strings_is_shown
    key user_input title content g (u : unit) (ss : list pystr) :
  strip user_input <> [] -> key <> [] ->
  OpenAI (Some key) = Ok u ->
  chat_completions_create user_input = Ok content ->
  parse_response content = Ok (PList (PStr <$> ss)) ->
  ss <> [] ->
  on_generate (Some key) user_input title g
  = [StSpinner (py "Parsing your items..."); ChatRequest user_input;
     StSuccessFound (length ss); StExpander (py "View parsed items")]
    ++ imap (fun i s => StWrite (S i) (PStr s)) ss
    ++ StSpinner (py "Generating bingo card...")
       :: match tight_layout
                  (figure_of (all_slots_with_free (PStr <$> ss) g) title)
          with
          | Ok _ =>
              [StPyplot (figure_of (all_slots_with_free (PStr <$> ss) g)
                           title);
               PltClose]
          | Raise e => [Uncaught e]
          end.
Proof.
  intros Hs Hk Hclient Hreply Hparse Hss.
  rewrite on_generate_ready, (try_parse_reply _ _ content u), Hparse by done.
  cbn [py_len py_iter fst snd]. unfold show_card.
  cbn [generate_bingo_card].
  rewrite render_str;
    [|apply length_all_slots_with_free
     |apply all_slots_with_free_is_str, Forall_take, Forall_fmap,
        Forall_true; by intros s].
  destruct ss as [|s ss]; [done|].
  rewrite length_fmap, imap_fmap.
  by destruct (tight_layout _) as [[]|e].
Qed.

(** X13. When the response decodes to a non-empty list with an element
    among its first 24 that is not a string, the run reports and lists
    the items as usual, and then the renderer raises [AttributeError]
    outside the [try] statement: the exception is not caught and no card is
    shown. *)
Theorem non_string_item_is_not_caught
    key user_input title content g (u : unit) (items : list pyval) :
  strip user_input <> [] -> key <> [] ->
  OpenAI (Some key) = Ok u ->
  chat_completions_create user_input = Ok content ->
  parse_response content = Ok (PList items) ->
  items <> [] ->
  ~ Forall (fun v => is_str v = true) (take 24 items) ->
  on_generate (Some key) user_input title g
  = [StSpinner (py "Parsing your items..."); ChatRequest user_input;
     StSuccessFound (length items); StExpander (py "View parsed items")]
    ++ imap (fun i item => StWrite (S i) item) items
    ++ [StSpinner (py "Generating bingo card..."); Uncaught AttributeError].
Proof.
  intros Hs Hk Hclient Hreply Hparse Hne Hitems.
  rewrite on_generate_ready, (try_parse_reply _ _ content u), Hparse by done.
  cbn [py_len py_iter fst snd]. unfold show_card.
  rewrite generate_bingo_card_Raise by done.
  by destruct items.
Qed.

End Traces.

Lemma extraction_error_is_reported_witness :
  (forall e,
     @OpenAI (remote_failing (RemoteError (py "401"))) (Some (py "sk-or-v1"))
     = Raise e ->
     @on_generate sample_wrap layout_accepting interpreter_1000
       (remote_failing (RemoteError (py "401")))
       (Some (py "sk-or-v1")) (py "ski, read") (py "2025 GOALS") []
     = [StSpinner (py "Parsing your items..."); StErrorParsing e])
  /\ (forall u e,
        @OpenAI (remote_failing (RemoteError (py "401")))
          (Some (py "sk-or-v1")) = Ok u ->
        @chat_completions_create (remote_failing (RemoteError (py "401")))
          (py "ski, read") ≫= @parse_response interpreter_1000 = Raise e ->
        @on_generate sample_wrap layout_accepting interpreter_1000
       (remote_failing (RemoteError (py "401")))
          (Some (py "sk-or-v1")) (py "ski, read") (py "2025 GOALS") []
        = [StSpinner (py "Parsing your items...");
           ChatRequest (py "ski, read"); StErrorParsing e]).
Proof.
  apply (@extraction_error_is_reported sample_wrap layout_accepting
           interpreter_1000
           (remote_failing (RemoteError (py "401")))
           (py "sk-or-v1") (py "ski, read") (py "2025 GOALS") []);
    vm_compute; discriminate.
Defined.

Lemma scalar_response_is_reported_witness :
  @on_generate sample_wrap layout_accepting interpreter_1000
       (remote_replying (py "42"))
    (Some (py "sk-or-v1")) (py "ski, read") (py "2025 GOALS") []
  = [StSpinner (py "Parsing your items..."); ChatRequest (py "ski, read");
     StErrorParsing TypeError].
Proof.
  apply (@scalar_response_is_reported sample_wrap layout_accepting
           interpreter_1000 (remote_replying (py "42"))
           (py "sk-or-v1") (py "ski, read") (py "2025 GOALS") (py "42") []
           tt (PInt 42));
    first [ reflexivity
          | vm_compute; discriminate
          | right; right; left; by exists 42%Z ].
Defined.

Lemma list_of_strings_is_shown_witness :
  @on_generate sample_wrap layout_accepting interpreter_1000
    (remote_replying (json_array [py "Ski"; py "Read"]))
    (Some (py "sk-or-v1")) (py "ski, read") (py "2025 GOALS") [3; 1; 4]
  = [StSpinner (py "Parsing your items..."); ChatRequest (py "ski, read");
     StSuccessFound (length [py "Ski"; py "Read"]);
     StExpander (py "View parsed items")]
    ++ imap (fun i s => StWrite (S i) (PStr s)) [py "Ski"; py "Read"]
    ++ StSpinner (py "Generating bingo card...")
       :: match @tight_layout layout_accepting
                  (@figure_of sample_wrap
                     (all_slots_with_free (PStr <$> [py "Ski"; py "Read"])
                        [3; 1; 4])
                     (py "2025 GOALS"))
          with
          | Ok _ =>
              [StPyplot
                 (@figure_of sample_wrap
                    (all_slots_with_free (PStr <$> [py "Ski"; py "Read"])
                       [3; 1; 4])
                    (py "2025 GOALS"));
               PltClose]
          | Raise e => [Uncaught e]
          end.
Proof.
  apply (@list_of_strings_is_shown sample_wrap layout_accepting
           interpreter_1000
           (remote_replying (json_array [py "Ski"; py "Read"]))
           (py "sk-or-v1") (py "ski, read") (py "2025 GOALS")
           (json_array [py "Ski"; py "Read"]) [3; 1; 4] tt
           [py "Ski"; py "Read"]);
    first [ reflexivity | vm_compute; discriminate ].
Defined.

Lemma non_string_item_is_not_caught_witness :
  @on_generate sample_wrap layout_accepting interpreter_1000
       (remote_replying (py "[1, 2]"))
    (Some (py "sk-or-v1")) (py "ski, read") (py "2025 GOALS") []
  = [StSpinner (py "Parsing your items..."); ChatRequest (py "ski, read");
     StSuccessFound (length [PInt 1; PInt 2]);
     StExpander (py "View parsed items")]
    ++ imap (fun i item => StWrite (S i) item) [PInt 1; PInt 2]
    ++ [StSpinner (py "Generating bingo card..."); Uncaught AttributeError].
Proof.
  apply (@non_string_item_is_not_caught sample_wrap layout_accepting
           interpreter_1000
           (remote_replying (py "[1, 2]"))
           (py "sk-or-v1") (py "ski, read") (py "2025 GOALS") (py "[1, 2]") []
           tt [PInt 1; PInt 2]);
    first [ reflexivity
          | vm_compute; discriminate
          | intros Hall; by inversion Hall ].
Defined.

Section EmptyContainers.
Context `{Textwrap, Matplotlib, Interpreter, OpenRouter}.

(** X15. A response that decodes to the empty string or to the empty
    object is treated like the empty list: zero items are reported, and
    nothing is rendered and no error is shown. *)
Theorem empty_value_skips_rendering
    (key user_input title content : pystr) (g : rng) (u : unit) (v : pyval) :
  strip user_input <> [] -> key <> [] ->
  OpenAI (Some key) = Ok u ->
  chat_completions_create user_input = Ok content ->
  parse_response content = Ok v ->
  v = PStr [] \/ v = PDict [] \/ v = PList [] ->
  on_generate (Some key) user_input title g
  = [StSpinner (py "Parsing your items..."); ChatRequest user_input;
     StSuccessFound 0; StExpander (py "View parsed items")].
Proof.
  intros Hs Hk Hclient Hreply Hparse Hv.
  rewrite on_generate_ready, (try_parse_reply _ _ content u), Hparse by done.
  by destruct Hv as [->|[->| ->]].
Qed.

End EmptyContainers.

Lemma empty_value_skips_rendering_witness :
  @on_generate sample_wrap layout_accepting interpreter_1000
       (remote_replying (py "{}"))
    (Some (py "sk-or-v1")) (py "ski, read") (py "2025 GOALS") []
  = [StSpinner (py "Parsing your items..."); ChatRequest (py "ski, read");
     StSuccessFound 0; StExpander (py "View parsed items")].
Proof.
  apply (@empty_value_skips_rendering sample_wrap layout_accepting
           interpreter_1000 (remote_replying (py "{}"))
           (py "sk-or-v1") (py "ski, read") (py "2025 GOALS") (py "{}") []
           tt (PDict []));
    first [ reflexivity | vm_compute; discriminate | right; left; reflexivity ].
Defined.
